(** * Pocket-bot: the signal-and-position engine of [Bot.py]

    A shallow embedding of the simulation core of [Bot.py]: the price
    generator, the indicator frame, the open/close decision of
    [try_take_signal] and one iteration of [simulation_loop].

    Modelling conventions.
    - A Python float is an exact rational ([Q]); a value that may be NaN
      (a cell of an indicator column) is an [option Q], with [None] for NaN.
      Comparisons involving NaN are false, as in IEEE arithmetic.
    - The profit in pips, which the close test compares with fixed
      thresholds, is computed in binary64 as the code computes it
      ([Float64]): a move of five pips in decimals can fall short of 5, as
      from 1.1 to 1.1005, which gives 4.9999999999994493.
    - The module-level configuration constants are the fields of [Config].
    - The module-level mutable globals are the fields of [State], threaded
      explicitly through the functions that declare them [global].
    - The random generator and the clock are inputs of a loop iteration:
      the value of [random.random()] and of [datetime.utcnow().isoformat()].
    - A raised [IndexError] is the result [None] of [try_take_signal].
    - [log] only prints and [time.sleep] only waits; neither is modelled. *)

From Stdlib Require Import String Arith ZArith QArith Qabs List Bool Lia Lqa SpecFloat.
Import ListNotations.

Open Scope Q_scope.

(** ** Numbers *)

Module Num.

(** Strict comparison of rationals as a boolean. *)
Definition Qlt_bool (x y : Q) : bool := negb (Qle_bool y x).

(** Comparisons of possibly-NaN values: false as soon as one side is NaN. *)
Definition lt (a b : option Q) : bool :=
  match a, b with Some x, Some y => Qlt_bool x y | _, _ => false end.

Definition le (a b : option Q) : bool :=
  match a, b with Some x, Some y => Qle_bool x y | _, _ => false end.

Definition gt (a b : option Q) : bool := lt b a.
Definition ge (a b : option Q) : bool := le b a.

(** [pd.isna] on a cell. *)
Definition isna (a : option Q) : bool :=
  match a with None => true | Some _ => false end.

(** [10 ** n] as a positive integer. *)
Definition pow10 (n : nat) : Z := Z.pow 10 (Z.of_nat n).

(** Nearest integer, ties to the even neighbour. *)
Definition round_half_even (x : Q) : Z :=
  let n := Qnum x in
  let d := Zpos (Qden x) in
  let q := Z.div n d in
  let r := Z.modulo n d in
  match Z.compare (2 * r) d with
  | Lt => q
  | Gt => (q + 1)%Z
  | Eq => if Z.even q then q else (q + 1)%Z
  end.

(** Python's [round(x, ndigits)]. *)
Definition round (x : Q) (ndigits : nat) : Q :=
  inject_Z (round_half_even (x * inject_Z (pow10 ndigits))) / inject_Z (pow10 ndigits).

(** [random.uniform(a, b)] is [a + (b - a) * random.random()]; [u] is the
    value drawn by [random.random()], a number of the interval [0, 1). *)
Definition uniform (a b u : Q) : Q := a + (b - a) * u.

Definition sum (xs : list Q) : Q := fold_right Qplus 0 xs.

End Num.

(** ** Binary64 *)

(** IEEE 754 double precision, by the executable specification of the
    Standard Library: 53 bits of mantissa, round to nearest, ties to even. *)
Module Float64.

Definition prec : Z := 53.
Definition emax : Z := 1024.

(** The binary64 number of an integer, exact below [2 ** 53]. *)
Definition of_Z (z : Z) : spec_float := binary_normalize prec emax z 0 false.

(** The binary64 number nearest to a rational whose numerator and
    denominator are below [2 ** 53]: the float that Python holds for a
    price of five decimals. *)
Definition of_Q (q : Q) : spec_float :=
  SFdiv prec emax (of_Z (Qnum q)) (of_Z (Zpos (Qden q))).

Definition sub : spec_float -> spec_float -> spec_float := SFsub prec emax.
Definition mul : spec_float -> spec_float -> spec_float := SFmul prec emax.

(** The rational that a finite binary64 number is. Infinities and NaN,
    which no difference of two prices of ordinary size gives, are read
    as 0. *)
Definition to_Q (x : spec_float) : Q :=
  match x with
  | S754_finite s m e =>
      let v := match e with
               | Z0 => inject_Z (Zpos m)
               | Zpos k => inject_Z (Zpos m * 2 ^ Zpos k)
               | Zneg k => Zpos m # (2 ^ k)%positive
               end in
      if s then - v else v
  | _ => 0
  end.

End Float64.

(** ** Configuration and state *)

Record Config := {
  START_BALANCE : Q;
  RSI_WINDOW : nat;
  MA_SHORT : nat;
  MA_LONG : nat;
  TRADE_AMOUNT : Q
}.

(** The defaults used when the environment sets nothing. *)
Definition default_config : Config :=
  {| START_BALANCE := 1000; RSI_WINDOW := 14; MA_SHORT := 5; MA_LONG := 20;
     TRADE_AMOUNT := 10 |}.

(** Positive window sizes: the ones for which the columns below are those
    of pandas and of the indicator library. Validating the configuration is
    the business of the bootstrap code, not of the engine. *)
Definition valid_config (c : Config) : Prop :=
  (1 <= RSI_WINDOW c)%nat /\ (1 <= MA_SHORT c)%nat /\ (1 <= MA_LONG c)%nat.

Inductive Direction := call | put.

Record Position := {
  entry_time : string;
  entry_price : Q;
  direction : Direction;
  amount : Q
}.

Record ClosedTrade := {
  ct_entry_time : string;
  ct_close_time : string;
  ct_entry_price : Q;
  ct_close_price : Q;
  ct_direction : Direction;
  ct_amount : Q;
  ct_profit_amount : Q;
  ct_pnl_pips : Q
}.

Record State := {
  balance : Q;
  open_position : option Position;
  trade_history : list ClosedTrade;
  price_series : list Q;
  tick : nat
}.

Definition initial_state (c : Config) : State :=
  {| balance := START_BALANCE c; open_position := None; trade_history := [];
     price_series := []; tick := 0 |}.

(** ** Price generator *)

Definition base : Q := 1.1.
Definition delta0 : Q := 0.005.
Definition delta1 : Q := 0.0008.

Definition generate_next_price (price_series : list Q) (u : Q) : Q :=
  let price :=
    match price_series with
    | [] => base + Num.uniform (- delta0) delta0 u
    | _ :: _ =>
        let last := List.last price_series 0 in
        let shock := Num.uniform (- delta1) delta1 u in
        last * (1 + shock)
    end in
  Num.round price 5.

(** ** Indicator frame *)

(** One row of the data frame: the closing price and the three indicator
    cells of that index. *)
Record Row := {
  close : Q;
  rsi : option Q;
  ma_short : option Q;
  ma_long : option Q
}.

Definition DataFrame := list Row.

Module Pandas.

(** Modelled from the spec: a cell of [Series.rolling(window=w).mean()],
    a function of pandas, which is not part of the sources. [pre] is the
    series up to and including the index of the cell; the cell is NaN until
    [w] points are there, then the arithmetic mean of the last [w]. *)
Definition window_mean (w : nat) (pre : list Q) : option Q :=
  if (1 <=? w)%nat && (w <=? length pre)%nat
  then Some (Num.sum (skipn (length pre - w) pre) / inject_Z (Z.of_nat w))
  else None.

(** Modelled from the spec: the column [Series.rolling(window=w).mean()],
    one trailing mean per index. *)
Definition rolling_mean (w : nat) (xs : list Q) : list (option Q) :=
  map (fun i => window_mean w (firstn (S i) xs)) (seq 0 (length xs)).

(** The rows of a frame whose columns are the four given lists. *)
Definition frame (closes : list Q) (rsis mss mls : list (option Q)) : DataFrame :=
  map (fun i => {| close := nth i closes 0; rsi := nth i rsis None;
                   ma_short := nth i mss None; ma_long := nth i mls None |})
      (seq 0 (length closes)).

(** [df.iloc[-1]]: the last row; absent on an empty frame, where pandas
    raises [IndexError]. *)
Definition iloc_last (df : DataFrame) : option Row :=
  nth_error df (length df - 1).

(** [df.iloc[-2]], read only when [len(df) >= 2]. *)
Definition iloc_prev (df : DataFrame) : option Row :=
  if (2 <=? length df)%nat then nth_error df (length df - 2) else None.

End Pandas.

(** The relative-strength index comes from the indicator library
    ([RSIIndicator(close, window).rsi()]), which is not part of the sources.
    The specification describes it: gains and losses of the one-step
    differences, averaged by Wilder's exponential smoothing, their ratio
    [RS] mapped to [100 - 100 / (1 + RS)], and 100 when the average loss is
    zero. *)
Module Ta.

(** Modelled from the spec: the one-step differences of the closing prices
    after the first, each the step from the previous value. *)
Fixpoint diff_from (prev : Q) (xs : list Q) : list (option Q) :=
  match xs with
  | [] => []
  | x :: r => Some (x - prev) :: diff_from x r
  end.

(** Modelled from the spec: the one-step differences of the closing prices;
    the first price has none (NaN). *)
Definition diff (xs : list Q) : list (option Q) :=
  match xs with
  | [] => []
  | x :: r => None :: diff_from x r
  end.

(** Modelled from the spec: exponential smoothing continued from the average
    [y]: each new value enters with weight [alpha]. *)
Fixpoint ewm_from (alpha y : Q) (xs : list Q) : list Q :=
  match xs with
  | [] => []
  | x :: r => let y' := (1 - alpha) * y + alpha * x in y' :: ewm_from alpha y' r
  end.

(** Modelled from the spec: exponential smoothing of a series, started
    at its first value. *)
Definition ewm_mean (alpha : Q) (xs : list Q) : list Q :=
  match xs with
  | [] => []
  | x :: r => x :: ewm_from alpha x r
  end.

(** Modelled from the spec: the gain of a step, zero for a fall and for the
    missing first difference. *)
Definition up_direction (d : option Q) : Q :=
  match d with
  | Some x => if Num.Qlt_bool 0 x then x else 0
  | None => 0
  end.

(** Modelled from the spec: the loss of a step, zero for a rise and for the
    missing first difference. *)
Definition down_direction (d : option Q) : Q :=
  match d with
  | Some x => if Num.Qlt_bool x 0 then - x else 0
  | None => 0
  end.

(** Modelled from the spec: the index of an average gain and an average
    loss, [100 - 100 / (1 + RS)], clamped to 100 when the average loss is
    zero. *)
Definition rsi_value (emaup emadn : Q) : Q :=
  if Qeq_bool emadn 0 then 100 else 100 - 100 / (1 + emaup / emadn).

(** Modelled from the spec: a cell is NaN until [window] points are there. *)
Definition mask (window i : nat) (v : Q) : option Q :=
  if (S i <? window)%nat then None else Some v.

(** Modelled from the spec: the cells of the index from index [i] on, given
    the average gains and losses from there on. *)
Fixpoint rsi_cells (window i : nat) (ups dns : list Q) : list (option Q) :=
  match ups, dns with
  | u :: ups', d :: dns' =>
      mask window i (rsi_value u d) :: rsi_cells window (S i) ups' dns'
  | _, _ => []
  end.

(** Modelled from the spec: the average gain, one cell per index, by Wilder's
    smoothing ([alpha = 1 / window]). *)
Definition emaup_series (window : nat) (closes : list Q) : list Q :=
  ewm_mean (1 / inject_Z (Z.of_nat window)) (map up_direction (diff closes)).

(** Modelled from the spec: the average loss, one cell per index. *)
Definition emadn_series (window : nat) (closes : list Q) : list Q :=
  ewm_mean (1 / inject_Z (Z.of_nat window)) (map down_direction (diff closes)).

(** Modelled from the spec: the column [RSIIndicator(close, window).rsi()]. *)
Definition rsi_series (window : nat) (closes : list Q) : list (option Q) :=
  rsi_cells window 0 (emaup_series window closes) (emadn_series window closes).

(** The average gain and the average loss behind the cell of index [i]. *)
Definition emaup (w : nat) (xs : list Q) (i : nat) : Q := nth i (emaup_series w xs) 0.
Definition emadn (w : nat) (xs : list Q) (i : nat) : Q := nth i (emadn_series w xs) 0.

End Ta.

Definition compute_indicators (c : Config) (prices : list Q) : option DataFrame :=
  if (length prices <? Nat.max (RSI_WINDOW c) (MA_LONG c) + 1)%nat then None
  else
    Some (Pandas.frame prices
            (Ta.rsi_series (RSI_WINDOW c) prices)
            (Pandas.rolling_mean (MA_SHORT c) prices)
            (Pandas.rolling_mean (MA_LONG c) prices)).

(** ** Signal and position engine *)

Definition take_profit : Q := 5.
Definition stop_loss : Q := - (10).

(** The profit or loss of a position at the current price, in pips: the
    binary64 value of [(current_price - entry_price) * 10000], or of
    [(entry_price - current_price) * 10000], the two prices being the
    floats of their decimals. The value is handed on as the rational it is:
    comparing it with a threshold is the comparison of the floats. *)
Definition pnl_pips (direction : Direction) (entry_price current_price : Q) : Q :=
  let entry_price := Float64.of_Q entry_price in
  let current_price := Float64.of_Q current_price in
  Float64.to_Q
    match direction with
    | call => Float64.mul (Float64.sub current_price entry_price) (Float64.of_Z 10000)
    | put => Float64.mul (Float64.sub entry_price current_price) (Float64.of_Z 10000)
    end.

Arguments pnl_pips : simpl never.

Definition profit_amount (pnl amount : Q) : Q := (pnl / 10) * (amount / 100).

Definition buy_signal (last : Row) (prev : option Row) : bool :=
  Num.lt (rsi last) (Some 30) &&
  match prev with
  | Some prev => Num.le (ma_short prev) (ma_long prev) && Num.gt (ma_short last) (ma_long last)
  | None => false
  end.

Definition sell_signal (last : Row) (prev : option Row) : bool :=
  Num.gt (rsi last) (Some 70) &&
  match prev with
  | Some prev => Num.ge (ma_short prev) (ma_long prev) && Num.lt (ma_short last) (ma_long last)
  | None => false
  end.

Definition ma_reverse (direction : Direction) (last : Row) (prev : option Row) : bool :=
  match prev with
  | Some prev =>
      match direction with
      | call => Num.ge (ma_short prev) (ma_long prev) && Num.lt (ma_short last) (ma_long last)
      | put => Num.le (ma_short prev) (ma_long prev) && Num.gt (ma_short last) (ma_long last)
      end
  | None => false
  end.

Definition set_ledger (st : State) (b : Q) (p : option Position)
    (h : list ClosedTrade) : State :=
  {| balance := b; open_position := p; trade_history := h;
     price_series := price_series st; tick := tick st |}.

Definition try_take_signal (c : Config) (now : string) (st : State)
    (df : DataFrame) : option State :=
  match Pandas.iloc_last df with
  | None => None
  | Some last =>
    let prev := Pandas.iloc_prev df in
    if Num.isna (rsi last) || Num.isna (ma_short last) || Num.isna (ma_long last)
    then Some st
    else
      let current_price := close last in
      match open_position st with
      | None =>
          if buy_signal last prev then
            Some (set_ledger st (balance st - TRADE_AMOUNT c)
                    (Some {| entry_time := now; entry_price := current_price;
                             direction := call; amount := TRADE_AMOUNT c |})
                    (trade_history st))
          else if sell_signal last prev then
            Some (set_ledger st (balance st - TRADE_AMOUNT c)
                    (Some {| entry_time := now; entry_price := current_price;
                             direction := put; amount := TRADE_AMOUNT c |})
                    (trade_history st))
          else Some st
      | Some entry =>
          let pnl := pnl_pips (direction entry) (entry_price entry) current_price in
          if Qle_bool take_profit pnl || Qle_bool pnl stop_loss
             || ma_reverse (direction entry) last prev
          then
            let profit_amount := profit_amount pnl (amount entry) in
            let closed :=
              {| ct_entry_time := entry_time entry; ct_close_time := now;
                 ct_entry_price := entry_price entry; ct_close_price := current_price;
                 ct_direction := direction entry; ct_amount := amount entry;
                 ct_profit_amount := Num.round profit_amount 6;
                 ct_pnl_pips := Num.round pnl 3 |} in
            Some (set_ledger st (balance st + (amount entry + profit_amount)) None
                    (trade_history st ++ [closed]))
          else Some st
      end
  end.

(** ** The simulation loop *)

(** [price_series.append(price)], then [price_series.pop(0)] when the series
    has grown beyond 500 points. *)
Definition append_bounded (price_series : list Q) (price : Q) : list Q :=
  let appended := price_series ++ [price] in
  if (500 <? length appended)%nat then tl appended else appended.

(** The state once the tick is counted and the new price recorded. *)
Definition record_price (st : State) (price : Q) : State :=
  {| balance := balance st; open_position := open_position st;
     trade_history := trade_history st;
     price_series := append_bounded (price_series st) price;
     tick := S (tick st) |}.

(** One iteration of the [while running] loop of [simulation_loop]; [u] is
    the number drawn by the generator and [now] the reading of the clock. *)
Definition loop_iteration (c : Config) (u : Q) (now : string) (st : State)
    : option State :=
  let price := generate_next_price (price_series st) u in
  let st1 := record_price st price in
  match compute_indicators c (price_series st1) with
  | Some df => try_take_signal c now st1 df
  | None => Some st1
  end.

(** The loop run over the given draws and clock readings. *)
Fixpoint simulation_loop (c : Config) (inputs : list (Q * string)) (st : State)
    : option State :=
  match inputs with
  | [] => Some st
  | (u, now) :: rest =>
      match loop_iteration c u now st with
      | Some st' => simulation_loop c rest st'
      | None => None
      end
  end.


(** The states the loop can be in: the initial one, and those one iteration
    after another, the draw being a number of [0, 1). *)
Inductive reachable (c : Config) : State -> Prop :=
| reachable_init : reachable c (initial_state c)
| reachable_step (st st' : State) (u : Q) (now : string) :
    reachable c st -> 0 <= u -> u < 1 ->
    loop_iteration c u now st = Some st' ->
    reachable c st'.

(** ** Vocabulary of the specification *)

(** Order between two cells, both of which must be available. *)
Definition cell_lt (a b : option Q) : Prop :=
  exists x y, a = Some x /\ b = Some y /\ x < y.

Definition cell_le (a b : option Q) : Prop :=
  exists x y, a = Some x /\ b = Some y /\ x <= y.

(** A snapshot is actionable when none of its three values is missing. *)
Definition actionable (r : Row) : Prop :=
  rsi r <> None /\ ma_short r <> None /\ ma_long r <> None.

(** The short average was at or below the long one on the previous row and
    is above it on the current row. *)
Definition upward_cross (prev : option Row) (last : Row) : Prop :=
  exists pr, prev = Some pr /\ cell_le (ma_short pr) (ma_long pr) /\
             cell_lt (ma_long last) (ma_short last).

(** The short average was at or above the long one on the previous row and
    is below it on the current row. *)
Definition downward_cross (prev : option Row) (last : Row) : Prop :=
  exists pr, prev = Some pr /\ cell_le (ma_long pr) (ma_short pr) /\
             cell_lt (ma_short last) (ma_long last).

Definition long_condition (prev : option Row) (last : Row) : Prop :=
  cell_lt (rsi last) (Some 30) /\ upward_cross prev last.

Definition short_condition (prev : option Row) (last : Row) : Prop :=
  cell_lt (Some 70) (rsi last) /\ downward_cross prev last.

(** The crossover against the position: downward for a long, upward for a
    short. *)
Definition reverse_cross (d : Direction) (prev : option Row) (last : Row) : Prop :=
  match d with
  | call => downward_cross prev last
  | put => upward_cross prev last
  end.

Definition close_condition (p : Position) (prev : option Row) (last : Row) : Prop :=
  let pnl := pnl_pips (direction p) (entry_price p) (close last) in
  5 <= pnl \/ pnl <= - (10) \/ reverse_cross (direction p) prev last.


(** What a tick did to the ledger, read off the states before and after it. *)
Inductive LedgerAction :=
| NoAction
| Opened (stake : Q)
| Closed (stake profit : Q).

Definition ledger_action (st st' : State) : LedgerAction :=
  match open_position st, open_position st' with
  | None, Some p => Opened (amount p)
  | Some p, None =>
      Closed (amount p)
        (profit_amount
           (pnl_pips (direction p) (entry_price p) (List.last (price_series st') 0))
           (amount p))
  | _, _ => NoAction
  end.

Fixpoint ledger_trace (c : Config) (inputs : list (Q * string)) (st : State)
    : list LedgerAction :=
  match inputs with
  | [] => []
  | (u, now) :: rest =>
      match loop_iteration c u now st with
      | Some st' => ledger_action st st' :: ledger_trace c rest st'
      | None => []
      end
  end.

Fixpoint sum_opens (tr : list LedgerAction) : Q :=
  match tr with
  | [] => 0
  | Opened stake :: r => stake + sum_opens r
  | _ :: r => sum_opens r
  end.

Fixpoint sum_closes (tr : list LedgerAction) : Q :=
  match tr with
  | [] => 0
  | Closed stake profit :: r => (stake + profit) + sum_closes r
  | _ :: r => sum_closes r
  end.

(** A tick opened a position: one is there afterwards that was not before. *)
Definition opened (st st' : State) : Prop :=
  exists p, open_position st' = Some p /\ open_position st <> Some p.

(** A tick closed a position: the trade history changed. *)
Definition closed (st st' : State) : Prop :=
  trade_history st' <> trade_history st.

(** The three ledgers a signal evaluation can leave: after an open, the
    record of a close, and after a close. *)
Definition open_state (c : Config) (now : string) (st : State) (last : Row)
    (d : Direction) : State :=
  set_ledger st (balance st - TRADE_AMOUNT c)
    (Some {| entry_time := now; entry_price := close last; direction := d;
             amount := TRADE_AMOUNT c |})
    (trade_history st).

Definition closed_trade (now : string) (p : Position) (last : Row) : ClosedTrade :=
  let pnl := pnl_pips (direction p) (entry_price p) (close last) in
  {| ct_entry_time := entry_time p; ct_close_time := now;
     ct_entry_price := entry_price p; ct_close_price := close last;
     ct_direction := direction p; ct_amount := amount p;
     ct_profit_amount := Num.round (profit_amount pnl (amount p)) 6;
     ct_pnl_pips := Num.round pnl 3 |}.

Definition close_state (now : string) (st : State) (p : Position) (last : Row) : State :=
  let pnl := pnl_pips (direction p) (entry_price p) (close last) in
  set_ledger st (balance st + (amount p + profit_amount pnl (amount p))) None
    (trade_history st ++ [closed_trade now p last]).

(** What every reachable state satisfies: the series holds at most 500
    points, and a position is open only when the series is long enough for
    the last two rows of the frame to be complete. *)
Definition loop_invariant (c : Config) (st : State) : Prop :=
  (length (price_series st) <= 500)%nat /\
  (open_position st <> None ->
   (Nat.max (RSI_WINDOW c) (MA_LONG c) + 1 <= length (price_series st))%nat /\
   (1 <= MA_SHORT c)%nat /\ (MA_SHORT c + 1 <= length (price_series st))%nat /\
   (1 <= MA_LONG c)%nat).

(** Sample data for the instances below. *)
Definition sample_prev : Row :=
  {| close := 1; rsi := Some 25; ma_short := Some 1; ma_long := Some 2 |}.
Definition sample_last : Row :=
  {| close := 11 / 10; rsi := Some 20; ma_short := Some 3; ma_long := Some 2 |}.
Definition sample_nan : Row :=
  {| close := 11 / 10; rsi := Some 20; ma_short := None; ma_long := Some 2 |}.

(** A run of the default configuration: a first price of 1.1, two ticks of
    the strongest fall, one of a strong rise, sixteen ticks without a move,
    and a slight fall on the 21st tick. *)
Definition sample_draws : list (Q * string) :=
  [(1 # 2, "t"%string); (0, "t"%string); (0, "t"%string); (99 # 100, "t"%string)]
  ++ repeat (1 # 2, "t"%string) 16 ++ [(2 # 5, "t"%string)].

(** The prices of that run. *)
Definition sample_prices : list Q :=
  [1.10000; 1.09912; 1.09824; 1.09910] ++ repeat 1.09910 16 ++ [1.09892].

Definition state_after (c : Config) (inputs : list (Q * string)) : State :=
  match simulation_loop c inputs (initial_state c) with
  | Some st => st
  | None => initial_state c
  end.

(** The states of that run after 20 and after 21 ticks. *)
Definition sample_state_20 : State :=
  Eval vm_compute in state_after default_config (firstn 20 sample_draws).

Definition sample_state_21 : State :=
  Eval vm_compute in state_after default_config sample_draws.

Definition sample_position : Position :=
  {| entry_time := "t"; entry_price := 1.09892; direction := call;
     amount := 10 |}.

(** The sample run followed by one tick of a strong rise. *)
Definition round_trip_draws : list (Q * string) :=
  sample_draws ++ [(99 # 100, "t"%string)].




(** The same state with another balance. *)
Definition with_balance (st : State) (b : Q) : State :=
  {| balance := b; open_position := open_position st;
     trade_history := trade_history st; price_series := price_series st;
     tick := tick st |}.

(** The default configuration started with less than one stake. *)
Definition poor_config : Config :=
  {| START_BALANCE := 5; RSI_WINDOW := 14; MA_SHORT := 5; MA_LONG := 20;
     TRADE_AMOUNT := 10 |}.

(** Three rising prices: no loss at all. *)
Definition rising_prices : list Q := [1.1; 1.2; 1.3].

(** ** The read-only views *)

(** The body of the [/status] view before [jsonify]. *)
Record StatusView := {
  sv_balance : Q;
  sv_open_position : option Position;
  sv_trades_count : nat;
  sv_latest_price : option Q;
  sv_tick : nat
}.

Definition status (st : State) : StatusView :=
  {| sv_balance := Num.round (balance st) 6;
     sv_open_position := open_position st;
     sv_trades_count := length (trade_history st);
     sv_latest_price :=
       match price_series st with
       | [] => None
       | _ :: _ => Some (List.last (price_series st) 0)
       end;
     sv_tick := tick st |}.

(** The body of the [/trades] view before [jsonify]. *)
Definition trades (st : State) : list ClosedTrade := trade_history st.

(** ** Further vocabulary *)

(** A quoted price: a positive multiple of 0.00001. *)
Definition is_price (p : Q) : Prop :=
  exists k : Z, (1 <= k)%Z /\ p == inject_Z k / 100000.

(** The ledger as the program starts with it. *)
Definition untouched (c : Config) (st : State) : Prop :=
  balance st = START_BALANCE c /\ open_position st = None /\ trade_history st = [].

(** The stake held by the open position, if any. *)
Definition held (st : State) : Q :=
  match open_position st with
  | Some p => amount p
  | None => 0
  end.

Definition open_count (st : State) : nat :=
  match open_position st with
  | Some _ => 1
  | None => 0
  end.

Fixpoint count_opens (tr : list LedgerAction) : nat :=
  match tr with
  | [] => 0
  | Opened _ :: r => S (count_opens r)
  | _ :: r => count_opens r
  end.

Fixpoint count_closes (tr : list LedgerAction) : nat :=
  match tr with
  | [] => 0
  | Closed _ _ :: r => S (count_closes r)
  | _ :: r => count_closes r
  end.

Fixpoint sum_profits (tr : list LedgerAction) : Q :=
  match tr with
  | [] => 0
  | Closed _ profit :: r => profit + sum_profits r
  | _ :: r => sum_profits r
  end.

(** What a closed trade records: the configured stake, two quoted prices,
    and the profit in pips and the profit amount that its own direction,
    prices and stake give, rounded as they are stored. *)
Definition trade_consistent (c : Config) (t : ClosedTrade) : Prop :=
  let pnl := pnl_pips (ct_direction t) (ct_entry_price t) (ct_close_price t) in
  ct_amount t = TRADE_AMOUNT c /\
  is_price (ct_entry_price t) /\ is_price (ct_close_price t) /\
  ct_pnl_pips t = Num.round pnl 3 /\
  ct_profit_amount t = Num.round (profit_amount pnl (ct_amount t)) 6.

Definition position_consistent (c : Config) (p : Position) : Prop :=
  amount p = TRADE_AMOUNT c /\ is_price (entry_price p).

(** ** The log *)

(** A line handed to [log], by its message and the values formatted into
    it; [{:.5f}] and [{:.6f}] round to five and to six decimals. The time
    stamp that [log] puts in front is left out. *)
Inductive LogLine :=
| OpenBuyLine (price : Q)
| OpenSellLine (price : Q)
| CloseLine (d : Direction) (price profit : Q)
| TickLine (tick : nat) (price balance : Q) (is_open : bool) (trades : nat).

(** The lines [try_take_signal] logs, branch by branch; nothing when it
    raises. *)
Definition try_take_signal_log (c : Config) (st : State) (df : DataFrame)
    : option (list LogLine) :=
  match Pandas.iloc_last df with
  | None => None
  | Some last =>
    let prev := Pandas.iloc_prev df in
    if Num.isna (rsi last) || Num.isna (ma_short last) || Num.isna (ma_long last)
    then Some []
    else
      let current_price := close last in
      match open_position st with
      | None =>
          if buy_signal last prev then Some [OpenBuyLine (Num.round current_price 5)]
          else if sell_signal last prev then Some [OpenSellLine (Num.round current_price 5)]
          else Some []
      | Some entry =>
          let pnl := pnl_pips (direction entry) (entry_price entry) current_price in
          if Qle_bool take_profit pnl || Qle_bool pnl stop_loss
             || ma_reverse (direction entry) last prev
          then Some [CloseLine (direction entry) (Num.round current_price 5)
                       (Num.round (profit_amount pnl (amount entry)) 6)]
          else Some []
      end
  end.

(** The status line of every tenth tick, from the state at the end of the
    iteration. *)
Definition tick_log (st : State) (price : Q) : list LogLine :=
  if (tick st mod 10 =? 0)%nat
  then [TickLine (tick st) (Num.round price 5) (Num.round (balance st) 6)
          (match open_position st with Some _ => true | None => false end)
          (length (trade_history st))]
  else [].

(** The lines one iteration of the loop logs. *)
Definition loop_iteration_log (c : Config) (u : Q) (now : string) (st : State)
    : option (list LogLine) :=
  let price := generate_next_price (price_series st) u in
  let st1 := record_price st price in
  match compute_indicators c (price_series st1) with
  | Some df =>
      match try_take_signal_log c st1 df, try_take_signal c now st1 df with
      | Some lines, Some st2 => Some (lines ++ tick_log st2 price)
      | _, _ => None
      end
  | None => Some (tick_log st1 price)
  end.

(** The lines that the ledger before and after an iteration accounts for. *)
Definition journal (st st' : State) : list LogLine :=
  let price := List.last (price_series st') 0 in
  match open_position st, open_position st' with
  | None, Some p =>
      [match direction p with
       | call => OpenBuyLine (Num.round (entry_price p) 5)
       | put => OpenSellLine (Num.round (entry_price p) 5)
       end]
  | Some p, None =>
      [CloseLine (direction p) (Num.round price 5)
         (Num.round (profit_amount (pnl_pips (direction p) (entry_price p) price)
                       (amount p)) 6)]
  | _, _ => []
  end ++ tick_log st' price.

(** A configuration whose long average spans 500 points: a frame needs 501
    prices, more than the history ever holds. *)
Definition wide_config : Config :=
  {| START_BALANCE := 1000; RSI_WINDOW := 14; MA_SHORT := 5; MA_LONG := 500;
     TRADE_AMOUNT := 10 |}.

(** The state at the end of the round trip. *)
Definition round_trip_state : State :=
  Eval vm_compute in state_after default_config round_trip_draws.

(** The state of the wide configuration after the sample run. *)
Definition wide_state : State :=
  Eval vm_compute in state_after wide_config sample_draws.

(** A long position entered at 1.1, and a row that closes five pips above
    it in decimals. *)
Definition held_state : State :=
  {| balance := 990;
     open_position := Some {| entry_time := "t"; entry_price := 1.1;
                              direction := call; amount := 10 |};
     trade_history := []; price_series := []; tick := 0 |}.

Definition boundary_row : Row :=
  {| close := 1.1005; rsi := Some 50; ma_short := Some 1; ma_long := Some 1 |}.

(** * Properties *)

Module NumFacts.
Import Num.

Lemma Qlt_bool_iff (x y : Q) : Qlt_bool x y = true <-> x < y.
Proof.
  unfold Qlt_bool. rewrite negb_true_iff.
  split; intro H.
  - apply Qnot_le_lt. intro Hle. apply Qle_bool_iff in Hle. congruence.
  - destruct (Qle_bool y x) eqn:E; [|reflexivity].
    apply Qle_bool_iff in E. exfalso. apply (Qlt_not_le _ _ H E).
Qed.

(** The nearest integer is within one half. *)
Lemma round_half_even_near (x : Q) :
  inject_Z (round_half_even x) - (1 # 2) <= x /\
  x <= inject_Z (round_half_even x) + (1 # 2).
Proof.
  destruct x as [n d]. unfold round_half_even. simpl Qnum. simpl Qden.
  pose proof (Z.div_mod n (Zpos d) ltac:(lia)) as Hdm.
  pose proof (Z.mod_pos_bound n (Zpos d) ltac:(lia)) as Hr.
  set (q := (n / Zpos d)%Z) in *. set (r := (n mod Zpos d)%Z) in *.
  assert (Hlo : forall k : Z,
            inject_Z k - (1 # 2) <= n # d <-> (2 * k * Zpos d - Zpos d <= 2 * n)%Z).
  { intro k. unfold Qle, Qminus, Qplus, Qopp, inject_Z. cbn [Qnum Qden].
    rewrite ?Pos2Z.inj_mul. nia. }
  assert (Hhi : forall k : Z,
            n # d <= inject_Z k + (1 # 2) <-> (2 * n <= 2 * k * Zpos d + Zpos d)%Z).
  { intro k. unfold Qle, Qminus, Qplus, Qopp, inject_Z. cbn [Qnum Qden].
    rewrite ?Pos2Z.inj_mul. nia. }
  destruct (Z.compare_spec (2 * r) (Zpos d)) as [He|Hlt|Hgt].
  - destruct (Z.even q); rewrite Hlo, Hhi; nia.
  - rewrite Hlo, Hhi; nia.
  - rewrite Hlo, Hhi; nia.
Qed.

(** [round x n] is a multiple of [10 ** -n], within half of one of [x]. *)
Lemma round_spec (x : Q) (n : nat) :
  exists k : Z, round x n == inject_Z k / inject_Z (pow10 n) /\
    Qabs (round x n - x) <= (1 # 2) / inject_Z (pow10 n).
Proof.
  exists (round_half_even (x * inject_Z (pow10 n))).
  split; [reflexivity|].
  unfold round.
  assert (Hp : 0 < inject_Z (pow10 n)).
  { unfold pow10. change 0 with (inject_Z 0). rewrite <- Zlt_Qlt.
    apply Z.pow_pos_nonneg; lia. }
  set (P := inject_Z (pow10 n)) in *.
  destruct (round_half_even_near (x * P)) as [H1 H2].
  set (k := inject_Z (round_half_even (x * P))) in *.
  assert (E : k / P - x == (k - x * P) / P) by (field; lra).
  rewrite E. apply Qabs_Qle_condition. split.
  - apply Qle_shift_div_l; [exact Hp|].
    assert (E2 : - ((1 # 2) / P) * P == - (1 # 2)) by (field; lra).
    rewrite E2. lra.
  - apply Qle_shift_div_r; [exact Hp|].
    assert (E2 : (1 # 2) / P * P == (1 # 2)) by (field; lra).
    rewrite E2. lra.
Qed.

End NumFacts.

(** ** The frame and its columns *)

Module FrameFacts.
Import Pandas.

Lemma rolling_mean_length (w : nat) (xs : list Q) :
  length (rolling_mean w xs) = length xs.
Proof. unfold rolling_mean. now rewrite length_map, length_seq. Qed.

Lemma rolling_mean_nth (w i : nat) (xs : list Q) :
  (i < length xs)%nat ->
  nth i (rolling_mean w xs) None = window_mean w (firstn (S i) xs).
Proof.
  intro Hi. unfold rolling_mean.
  rewrite (nth_indep _ None (window_mean w (firstn 1 xs)))
    by now rewrite length_map, length_seq.
  rewrite (map_nth (fun i => window_mean w (firstn (S i) xs)) (seq 0 (length xs)) 0%nat i).
  now rewrite seq_nth.
Qed.

(** A rolling mean is available exactly from index [w - 1] on. *)
Lemma rolling_mean_available (w i : nat) (xs : list Q) :
  (i < length xs)%nat ->
  (nth i (rolling_mean w xs) None <> None <-> (1 <= w <= S i)%nat).
Proof.
  intro Hi. rewrite rolling_mean_nth by assumption.
  unfold window_mean. rewrite length_firstn.
  replace (Nat.min (S i) (length xs)) with (S i) by lia.
  destruct (Nat.leb_spec 1 w); destruct (Nat.leb_spec w (S i)); simpl;
    split; intro HH; try congruence; try lia; discriminate.
Qed.

Lemma frame_length (cl : list Q) (r s l : list (option Q)) :
  length (frame cl r s l) = length cl.
Proof. unfold frame. now rewrite length_map, length_seq. Qed.

Lemma frame_nth_error (cl : list Q) (r s l : list (option Q)) (i : nat) :
  (i < length cl)%nat ->
  nth_error (frame cl r s l) i =
    Some {| close := nth i cl 0; rsi := nth i r None;
            ma_short := nth i s None; ma_long := nth i l None |}.
Proof.
  intro Hi. unfold frame.
  rewrite nth_error_map, nth_error_nth' with (d := 0%nat) by now rewrite length_seq.
  now rewrite seq_nth.
Qed.

Lemma iloc_last_frame (cl : list Q) (r s l : list (option Q)) :
  (1 <= length cl)%nat ->
  iloc_last (frame cl r s l) =
    Some {| close := nth (length cl - 1) cl 0; rsi := nth (length cl - 1) r None;
            ma_short := nth (length cl - 1) s None;
            ma_long := nth (length cl - 1) l None |}.
Proof.
  intro H. unfold iloc_last. rewrite frame_length.
  apply frame_nth_error. lia.
Qed.

Lemma iloc_prev_frame (cl : list Q) (r s l : list (option Q)) :
  (2 <= length cl)%nat ->
  iloc_prev (frame cl r s l) =
    Some {| close := nth (length cl - 2) cl 0; rsi := nth (length cl - 2) r None;
            ma_short := nth (length cl - 2) s None;
            ma_long := nth (length cl - 2) l None |}.
Proof.
  intro H. unfold iloc_prev. rewrite frame_length.
  destruct (2 <=? length cl)%nat eqn:E; [|apply Nat.leb_gt in E; lia].
  apply frame_nth_error. lia.
Qed.

Lemma iloc_prev_short (df : DataFrame) :
  (length df < 2)%nat -> iloc_prev df = None.
Proof.
  intro H. unfold iloc_prev.
  destruct (2 <=? length df)%nat eqn:E; [apply Nat.leb_le in E; lia | reflexivity].
Qed.

Lemma iloc_last_some (df : DataFrame) :
  (1 <= length df)%nat -> exists last, iloc_last df = Some last.
Proof.
  intro H. unfold iloc_last.
  destruct (nth_error df (length df - 1)) eqn:E; [eauto|].
  apply nth_error_None in E. lia.
Qed.

End FrameFacts.

Module RsiFacts.
Import Pandas Ta.

Lemma diff_from_length (p : Q) (xs : list Q) : length (diff_from p xs) = length xs.
Proof. revert p. induction xs as [|x r IH]; intro p; simpl; [reflexivity|]. now rewrite IH. Qed.

Lemma diff_length (xs : list Q) : length (diff xs) = length xs.
Proof. destruct xs; simpl; [reflexivity|]. now rewrite diff_from_length. Qed.

Lemma ewm_from_length (a y : Q) (xs : list Q) : length (ewm_from a y xs) = length xs.
Proof. revert y. induction xs as [|x r IH]; intro y; simpl; [reflexivity|]. now rewrite IH. Qed.

Lemma ewm_mean_length (a : Q) (xs : list Q) : length (ewm_mean a xs) = length xs.
Proof. destruct xs; simpl; [reflexivity|]. now rewrite ewm_from_length. Qed.

Lemma rsi_cells_length (w i : nat) (us ds : list Q) :
  length us = length ds -> length (rsi_cells w i us ds) = length us.
Proof.
  revert i ds. induction us as [|u us IH]; intros i [|d ds] H; simpl in *; try congruence.
  f_equal. apply IH. congruence.
Qed.

Lemma rsi_cells_nth (w i k : nat) (us ds : list Q) :
  length us = length ds -> (k < length us)%nat ->
  nth k (rsi_cells w i us ds) None = mask w (i + k) (rsi_value (nth k us 0) (nth k ds 0)).
Proof.
  revert i k ds. induction us as [|u us IH]; intros i k [|d ds] H Hk; simpl in *;
    try congruence; try lia.
  destruct k as [|k].
  - now rewrite Nat.add_0_r.
  - rewrite IH by (try congruence; lia). f_equal. lia.
Qed.

Lemma rsi_series_length (w : nat) (xs : list Q) :
  length (rsi_series w xs) = length xs.
Proof.
  unfold rsi_series, emaup_series, emadn_series. rewrite rsi_cells_length.
  - now rewrite ewm_mean_length, length_map, diff_length.
  - now rewrite !ewm_mean_length, !length_map.
Qed.

Lemma rsi_series_nth (w i : nat) (xs : list Q) :
  (i < length xs)%nat ->
  nth i (rsi_series w xs) None = mask w i (rsi_value (emaup w xs i) (emadn w xs i)).
Proof.
  intro Hi. unfold rsi_series.
  rewrite rsi_cells_nth.
  - reflexivity.
  - unfold emaup_series, emadn_series. now rewrite !ewm_mean_length, !length_map.
  - unfold emaup_series. now rewrite ewm_mean_length, length_map, diff_length.
Qed.

(** An RSI cell is available exactly from index [w - 1] on. *)
Lemma rsi_series_available (w i : nat) (xs : list Q) :
  (i < length xs)%nat ->
  (nth i (rsi_series w xs) None <> None <-> (w <= S i)%nat).
Proof.
  intro Hi. rewrite rsi_series_nth by assumption. unfold mask.
  destruct (S i <? w)%nat eqn:E;
    [apply Nat.ltb_lt in E | apply Nat.ltb_ge in E]; split; intro H;
    try congruence; try lia.
Qed.

Lemma up_direction_nonneg (d : option Q) : 0 <= up_direction d.
Proof.
  destruct d as [x|]; simpl; [|lra].
  destruct (Num.Qlt_bool 0 x) eqn:E; [|lra].
  apply NumFacts.Qlt_bool_iff in E. lra.
Qed.

Lemma down_direction_nonneg (d : option Q) : 0 <= down_direction d.
Proof.
  destruct d as [x|]; simpl; [|lra].
  destruct (Num.Qlt_bool x 0) eqn:E; [|lra].
  apply NumFacts.Qlt_bool_iff in E. lra.
Qed.

(** Smoothing keeps averages of non-negative values non-negative. *)
Lemma ewm_from_nonneg (a y : Q) (xs : list Q) :
  0 <= a -> a <= 1 -> 0 <= y -> Forall (fun x => 0 <= x) xs ->
  Forall (fun x => 0 <= x) (ewm_from a y xs).
Proof.
  intros Ha0 Ha1. revert y.
  induction xs as [|x r IH]; intros y Hy Hxs; simpl; [constructor|].
  inversion Hxs as [|? ? Hx Hr]; subst.
  assert (Hy' : 0 <= (1 - a) * y + a * x).
  { assert (0 <= (1 - a) * y) by (apply Qmult_le_0_compat; lra).
    assert (0 <= a * x) by (apply Qmult_le_0_compat; lra).
    lra. }
  constructor; [exact Hy'|]. now apply IH.
Qed.

Lemma ewm_mean_nonneg (a : Q) (xs : list Q) :
  0 <= a -> a <= 1 -> Forall (fun x => 0 <= x) xs ->
  Forall (fun x => 0 <= x) (ewm_mean a xs).
Proof.
  intros Ha0 Ha1 Hxs. destruct xs as [|x r]; simpl; [constructor|].
  inversion Hxs; subst. constructor; [assumption|]. now apply ewm_from_nonneg.
Qed.

Lemma alpha_range (w : nat) :
  (1 <= w)%nat ->
  0 <= 1 / inject_Z (Z.of_nat w) /\ 1 / inject_Z (Z.of_nat w) <= 1.
Proof.
  intro Hw.
  assert (Hp : 1 <= inject_Z (Z.of_nat w)).
  { change 1 with (inject_Z 1). rewrite <- Zle_Qle. lia. }
  split.
  - apply Qle_shift_div_l; lra.
  - apply Qle_shift_div_r; lra.
Qed.

Lemma nth_nonneg (xs : list Q) (i : nat) :
  Forall (fun x => 0 <= x) xs -> 0 <= nth i xs 0.
Proof.
  intro H. destruct (Nat.lt_ge_cases i (length xs)) as [Hi|Hi].
  - apply (proj1 (Forall_forall _ _) H). now apply nth_In.
  - rewrite nth_overflow by assumption. lra.
Qed.

Lemma emaup_nonneg (w : nat) (xs : list Q) (i : nat) :
  (1 <= w)%nat -> 0 <= emaup w xs i.
Proof.
  intro Hw. destruct (alpha_range w Hw) as [A0 A1].
  apply nth_nonneg. apply ewm_mean_nonneg; try assumption.
  apply Forall_forall. intros x Hx. apply in_map_iff in Hx.
  destruct Hx as (d & <- & _). apply up_direction_nonneg.
Qed.

Lemma emadn_nonneg (w : nat) (xs : list Q) (i : nat) :
  (1 <= w)%nat -> 0 <= emadn w xs i.
Proof.
  intro Hw. destruct (alpha_range w Hw) as [A0 A1].
  apply nth_nonneg. apply ewm_mean_nonneg; try assumption.
  apply Forall_forall. intros x Hx. apply in_map_iff in Hx.
  destruct Hx as (d & <- & _). apply down_direction_nonneg.
Qed.

(** The index of non-negative averages lies between 0 and 100. *)
Lemma rsi_value_bounds (u d : Q) :
  0 <= u -> 0 <= d -> 0 <= rsi_value u d /\ rsi_value u d <= 100.
Proof.
  intros Hu Hd. unfold rsi_value.
  destruct (Qeq_bool d 0) eqn:E; [lra|].
  apply Qeq_bool_neq in E.
  assert (Hd' : 0 < d).
  { destruct (Qlt_le_dec 0 d) as [H|H]; [exact H|].
    exfalso. apply E. lra. }
  assert (Ht : 0 <= u / d) by (apply Qle_shift_div_l; lra).
  set (t := u / d) in *.
  assert (H1 : 0 <= 100 / (1 + t)) by (apply Qle_shift_div_l; lra).
  assert (H2 : 100 / (1 + t) <= 100).
  { apply Qle_shift_div_r; [lra|].
    assert (0 <= 100 * t) by (apply Qmult_le_0_compat; lra). lra. }
  lra.
Qed.

End RsiFacts.

(** ** The decision predicates *)

Module SignalFacts.

Lemma lt_iff (a b : option Q) : Num.lt a b = true <-> cell_lt a b.
Proof.
  unfold cell_lt. destruct a as [x|], b as [y|]; simpl.
  - rewrite NumFacts.Qlt_bool_iff. split.
    + intro H. now exists x, y.
    + intros (x' & y' & Hx & Hy & H). now inversion Hx; inversion Hy; subst.
  - split; [discriminate | intros (x' & y' & _ & Hy & _); discriminate].
  - split; [discriminate | intros (x' & y' & Hx & _); discriminate].
  - split; [discriminate | intros (x' & y' & Hx & _); discriminate].
Qed.

Lemma le_iff (a b : option Q) : Num.le a b = true <-> cell_le a b.
Proof.
  unfold cell_le. destruct a as [x|], b as [y|]; simpl.
  - rewrite Qle_bool_iff. split.
    + intro H. now exists x, y.
    + intros (x' & y' & Hx & Hy & H). now inversion Hx; inversion Hy; subst.
  - split; [discriminate | intros (x' & y' & _ & Hy & _); discriminate].
  - split; [discriminate | intros (x' & y' & Hx & _); discriminate].
  - split; [discriminate | intros (x' & y' & Hx & _); discriminate].
Qed.

Lemma upward_iff (last : Row) (prev : option Row) :
  match prev with
  | Some pr => Num.le (ma_short pr) (ma_long pr) && Num.gt (ma_short last) (ma_long last)
  | None => false
  end = true <-> upward_cross prev last.
Proof.
  unfold upward_cross, Num.gt. destruct prev as [pr|].
  - rewrite andb_true_iff, le_iff, lt_iff. split.
    + intros [H1 H2]. now exists pr.
    + intros (pr' & E & H1 & H2). now inversion E; subst.
  - split; [discriminate | intros (pr' & E & _); discriminate].
Qed.

Lemma downward_iff (last : Row) (prev : option Row) :
  match prev with
  | Some pr => Num.ge (ma_short pr) (ma_long pr) && Num.lt (ma_short last) (ma_long last)
  | None => false
  end = true <-> downward_cross prev last.
Proof.
  unfold downward_cross, Num.ge. destruct prev as [pr|].
  - rewrite andb_true_iff, le_iff, lt_iff. split.
    + intros [H1 H2]. now exists pr.
    + intros (pr' & E & H1 & H2). now inversion E; subst.
  - split; [discriminate | intros (pr' & E & _); discriminate].
Qed.

Lemma buy_signal_iff (last : Row) (prev : option Row) :
  buy_signal last prev = true <-> long_condition prev last.
Proof.
  unfold buy_signal, long_condition.
  now rewrite andb_true_iff, lt_iff, upward_iff.
Qed.

Lemma sell_signal_iff (last : Row) (prev : option Row) :
  sell_signal last prev = true <-> short_condition prev last.
Proof.
  unfold sell_signal, short_condition, Num.gt.
  now rewrite andb_true_iff, lt_iff, downward_iff.
Qed.

Lemma ma_reverse_iff (d : Direction) (last : Row) (prev : option Row) :
  ma_reverse d last prev = true <-> reverse_cross d prev last.
Proof.
  unfold ma_reverse, reverse_cross. destruct d.
  - rewrite <- downward_iff. destruct prev; reflexivity.
  - rewrite <- upward_iff. destruct prev; reflexivity.
Qed.

(** The two entry conditions exclude each other: the index cannot be below
    30 and above 70 at once. *)
Lemma long_short_exclusive (last : Row) (prev : option Row) :
  long_condition prev last -> short_condition prev last -> False.
Proof.
  intros [(x & y & Hx & Hy & Hlt) _] [(x' & y' & Hx' & Hy' & Hgt) _].
  rewrite Hy' in Hx. inversion Hx; inversion Hy; inversion Hx'; subst. lra.
Qed.

Lemma actionable_isna (r : Row) :
  Num.isna (rsi r) || Num.isna (ma_short r) || Num.isna (ma_long r) = false
  <-> actionable r.
Proof.
  unfold actionable.
  destruct (rsi r), (ma_short r), (ma_long r); simpl; split; intro H;
    try reflexivity; try discriminate;
    try (repeat split; discriminate);
    destruct H as (H1 & H2 & H3); congruence.
Qed.

(** A crossover test needs the previous row and both of its averages. *)
Lemma upward_needs_predecessor (last : Row) (prev : option Row) :
  upward_cross prev last ->
  exists pr, prev = Some pr /\ ma_short pr <> None /\ ma_long pr <> None.
Proof.
  intros (pr & E & (x & y & Hx & Hy & _) & _). exists pr. rewrite Hx, Hy.
  repeat split; [assumption | discriminate | discriminate].
Qed.

Lemma downward_needs_predecessor (last : Row) (prev : option Row) :
  downward_cross prev last ->
  exists pr, prev = Some pr /\ ma_short pr <> None /\ ma_long pr <> None.
Proof.
  intros (pr & E & (x & y & Hx & Hy & _) & _). exists pr. rewrite Hx, Hy.
  repeat split; [assumption | discriminate | discriminate].
Qed.

End SignalFacts.

(** ** The engine, branch by branch *)

Module EngineFacts.
Import SignalFacts.

Lemma set_ledger_same (st : State) :
  set_ledger st (balance st) (open_position st) (trade_history st) = st.
Proof. now destruct st. Qed.

Lemma try_skip (c : Config) (now : string) (st : State) (df : DataFrame) (last : Row) :
  Pandas.iloc_last df = Some last -> ~ actionable last ->
  try_take_signal c now st df = Some st.
Proof.
  intros Hl Hna. unfold try_take_signal. rewrite Hl.
  destruct (Num.isna (rsi last) || Num.isna (ma_short last) || Num.isna (ma_long last)) eqn:E.
  - reflexivity.
  - apply actionable_isna in E. contradiction.
Qed.

Lemma try_flat (c : Config) (now : string) (st : State) (df : DataFrame) (last : Row) :
  Pandas.iloc_last df = Some last -> actionable last -> open_position st = None ->
  try_take_signal c now st df =
    Some (if buy_signal last (Pandas.iloc_prev df) then open_state c now st last call
          else if sell_signal last (Pandas.iloc_prev df) then open_state c now st last put
          else st).
Proof.
  intros Hl Ha Hp. unfold try_take_signal. rewrite Hl.
  apply actionable_isna in Ha. rewrite Ha, Hp.
  destruct (buy_signal last (Pandas.iloc_prev df)); [reflexivity|].
  destruct (sell_signal last (Pandas.iloc_prev df)); reflexivity.
Qed.

(** The profit in pips around the thresholds: binary64 puts the move from
    1.1 to 1.1005 just below 5 and the move from 1.1 to 1.101 against a short
    just above -10, while the values recorded, rounded to three decimals, are
    5 and -10. *)
Lemma pnl_pips_binary64 :
  pnl_pips call 1.1 1.1005 == 5629499534212500 # 1125899906842624 /\
  pnl_pips call 1.1 1.1005 < 5 /\
  - (10) < pnl_pips put 1.1 1.101 /\
  Num.round (pnl_pips call 1.1 1.1005) 3 == 5 /\
  Num.round (pnl_pips put 1.1 1.101) 3 == - (10) /\
  5 <= pnl_pips call 1.1 1.1006.
Proof.
  split; [vm_compute; reflexivity|]. split; [vm_compute; reflexivity|].
  split; [vm_compute; reflexivity|]. split; [vm_compute; reflexivity|].
  split; [vm_compute; reflexivity|]. vm_compute. discriminate.
Qed.

Lemma close_test_iff (p : Position) (last : Row) (prev : option Row) :
  Qle_bool take_profit (pnl_pips (direction p) (entry_price p) (close last))
  || Qle_bool (pnl_pips (direction p) (entry_price p) (close last)) stop_loss
  || ma_reverse (direction p) last prev = true
  <-> close_condition p prev last.
Proof.
  unfold close_condition, take_profit, stop_loss.
  rewrite !orb_true_iff, !Qle_bool_iff, ma_reverse_iff. tauto.
Qed.

Lemma try_held (c : Config) (now : string) (st : State) (df : DataFrame)
    (last : Row) (p : Position) :
  Pandas.iloc_last df = Some last -> actionable last -> open_position st = Some p ->
  try_take_signal c now st df =
    Some (if Qle_bool take_profit (pnl_pips (direction p) (entry_price p) (close last))
             || Qle_bool (pnl_pips (direction p) (entry_price p) (close last)) stop_loss
             || ma_reverse (direction p) last (Pandas.iloc_prev df)
          then close_state now st p last else st).
Proof.
  intros Hl Ha Hp. unfold try_take_signal. rewrite Hl.
  apply actionable_isna in Ha. rewrite Ha, Hp.
  now destruct (Qle_bool _ _ || Qle_bool _ _ || ma_reverse _ _ _).
Qed.

(** On a frame with a last row the function returns; the ledger it returns
    is the one it was given, or that of an open, or that of a close. *)
Lemma try_cases (c : Config) (now : string) (st : State) (df : DataFrame) (last : Row) :
  Pandas.iloc_last df = Some last ->
  exists st', try_take_signal c now st df = Some st' /\
    (st' = st
     \/ (open_position st = None /\ actionable last /\
         exists d, st' = open_state c now st last d /\
           match d with
           | call => long_condition (Pandas.iloc_prev df) last
           | put => short_condition (Pandas.iloc_prev df) last
           end)
     \/ (exists p, open_position st = Some p /\ actionable last /\
           close_condition p (Pandas.iloc_prev df) last /\
           st' = close_state now st p last)).
Proof.
  intro Hl.
  destruct (Num.isna (rsi last) || Num.isna (ma_short last) || Num.isna (ma_long last)) eqn:E.
  - exists st. split; [|now left].
    unfold try_take_signal. now rewrite Hl, E.
  - apply actionable_isna in E.
    destruct (open_position st) as [p|] eqn:Hp.
    + rewrite (try_held c now st df last p Hl E Hp).
      destruct (Qle_bool _ _ || Qle_bool _ _ || ma_reverse _ _ _) eqn:T.
      * eexists. split; [reflexivity|]. right. right. exists p.
        apply close_test_iff in T. auto.
      * eexists. split; [reflexivity|]. now left.
    + rewrite (try_flat c now st df last Hl E Hp).
      destruct (buy_signal last (Pandas.iloc_prev df)) eqn:B.
      * eexists. split; [reflexivity|]. right. left.
        split; [reflexivity|]. split; [assumption|]. exists call. split; [reflexivity|].
        now apply buy_signal_iff.
      * destruct (sell_signal last (Pandas.iloc_prev df)) eqn:S.
        -- eexists. split; [reflexivity|]. right. left.
           split; [reflexivity|]. split; [assumption|]. exists put. split; [reflexivity|].
           now apply sell_signal_iff.
        -- eexists. split; [reflexivity|]. now left.
Qed.

End EngineFacts.

(** ** The loop *)

Module LoopFacts.
Import FrameFacts RsiFacts SignalFacts EngineFacts.

Lemma nth_last (xs : list Q) : nth (length xs - 1) xs 0 = List.last xs 0.
Proof.
  induction xs as [|x r IH]; [reflexivity|].
  destruct r as [|y r']; [reflexivity|].
  simpl in *. now rewrite Nat.sub_0_r in IH.
Qed.

Lemma append_bounded_cases (ps : list Q) (p : Q) :
  ((length ps < 500)%nat -> append_bounded ps p = ps ++ [p]) /\
  ((500 <= length ps)%nat -> append_bounded ps p = tl ps ++ [p]).
Proof.
  unfold append_bounded. rewrite length_app. simpl.
  destruct (Nat.ltb_spec 500 (length ps + 1)); split; intro H'; try lia; try reflexivity.
  destruct ps; simpl in *; [lia | reflexivity].
Qed.

Lemma append_bounded_last (ps : list Q) (p : Q) :
  List.last (append_bounded ps p) 0 = p.
Proof.
  destruct (append_bounded_cases ps p) as [H1 H2].
  destruct (Nat.lt_ge_cases (length ps) 500) as [H|H].
  - rewrite H1 by assumption. apply last_last.
  - rewrite H2 by assumption. apply last_last.
Qed.

Lemma append_bounded_length (ps : list Q) (p : Q) :
  (length ps <= 500)%nat ->
  (length (append_bounded ps p) <= 500 /\ length ps <= length (append_bounded ps p)
   /\ 1 <= length (append_bounded ps p))%nat.
Proof.
  intro Hb. destruct (append_bounded_cases ps p) as [H1 H2].
  destruct (Nat.lt_ge_cases (length ps) 500) as [H|H].
  - rewrite H1 by assumption. rewrite length_app. simpl. lia.
  - rewrite H2 by assumption. rewrite length_app. simpl.
    destruct ps; simpl in *; lia.
Qed.

Lemma compute_indicators_some (c : Config) (ps : list Q) (df : DataFrame) :
  compute_indicators c ps = Some df ->
  (Nat.max (RSI_WINDOW c) (MA_LONG c) + 1 <= length ps)%nat /\
  df = Pandas.frame ps (Ta.rsi_series (RSI_WINDOW c) ps)
         (Pandas.rolling_mean (MA_SHORT c) ps) (Pandas.rolling_mean (MA_LONG c) ps).
Proof.
  unfold compute_indicators.
  destruct (Nat.ltb_spec (length ps) (Nat.max (RSI_WINDOW c) (MA_LONG c) + 1));
    [discriminate|].
  intro E. inversion E. split; [assumption | reflexivity].
Qed.

Lemma compute_indicators_none (c : Config) (ps : list Q) :
  compute_indicators c ps = None <->
  (length ps < Nat.max (RSI_WINDOW c) (MA_LONG c) + 1)%nat.
Proof.
  unfold compute_indicators.
  destruct (Nat.ltb_spec (length ps) (Nat.max (RSI_WINDOW c) (MA_LONG c) + 1));
    split; intro; try assumption; try reflexivity; try discriminate; lia.
Qed.

(** The last row of a computed frame. *)
Lemma compute_indicators_last (c : Config) (ps : list Q) (df : DataFrame) :
  compute_indicators c ps = Some df ->
  Pandas.iloc_last df =
    Some {| close := List.last ps 0;
            rsi := nth (length ps - 1) (Ta.rsi_series (RSI_WINDOW c) ps) None;
            ma_short := nth (length ps - 1) (Pandas.rolling_mean (MA_SHORT c) ps) None;
            ma_long := nth (length ps - 1) (Pandas.rolling_mean (MA_LONG c) ps) None |}.
Proof.
  intro H. apply compute_indicators_some in H. destruct H as [Hlen ->].
  rewrite iloc_last_frame by lia. now rewrite nth_last.
Qed.

(** The row before the last of a computed frame. *)
Lemma compute_indicators_prev (c : Config) (ps : list Q) (df : DataFrame) :
  compute_indicators c ps = Some df ->
  Pandas.iloc_prev df =
    if (2 <=? length ps)%nat then
      Some {| close := nth (length ps - 2) ps 0;
              rsi := nth (length ps - 2) (Ta.rsi_series (RSI_WINDOW c) ps) None;
              ma_short := nth (length ps - 2) (Pandas.rolling_mean (MA_SHORT c) ps) None;
              ma_long := nth (length ps - 2) (Pandas.rolling_mean (MA_LONG c) ps) None |}
    else None.
Proof.
  intro H. apply compute_indicators_some in H. destruct H as [Hlen ->].
  destruct (Nat.leb_spec 2 (length ps)).
  - now apply iloc_prev_frame.
  - apply iloc_prev_short. now rewrite frame_length.
Qed.

(** When the last row of a computed frame is actionable. *)
Lemma last_actionable_iff (c : Config) (ps : list Q) (df : DataFrame) (last : Row) :
  compute_indicators c ps = Some df -> Pandas.iloc_last df = Some last ->
  (actionable last <->
   (1 <= MA_SHORT c <= length ps)%nat /\ (1 <= MA_LONG c)%nat).
Proof.
  intros H Hl. rewrite (compute_indicators_last c ps df H) in Hl.
  apply compute_indicators_some in H. destruct H as [Hlen _].
  inversion Hl; subst; clear Hl. unfold actionable; simpl.
  rewrite rsi_series_available, !rolling_mean_available by lia.
  lia.
Qed.

(** When the row before the last of a computed frame is actionable. *)
Lemma prev_actionable_iff (c : Config) (ps : list Q) (df : DataFrame) :
  compute_indicators c ps = Some df ->
  ((exists pr, Pandas.iloc_prev df = Some pr /\ actionable pr) <->
   (1 <= MA_SHORT c)%nat /\ (MA_SHORT c + 1 <= length ps)%nat /\ (1 <= MA_LONG c)%nat).
Proof.
  intros H. rewrite (compute_indicators_prev c ps df H).
  apply compute_indicators_some in H. destruct H as [Hlen _].
  destruct (Nat.leb_spec 2 (length ps)) as [H2|H2].
  - split.
    + intros (pr & E & Ha). inversion E; subst; clear E.
      unfold actionable in Ha; simpl in Ha.
      rewrite rsi_series_available, !rolling_mean_available in Ha by lia. lia.
    + intros Hw. eexists. split; [reflexivity|].
      unfold actionable; simpl.
      rewrite rsi_series_available, !rolling_mean_available by lia. lia.
  - split; [intros (pr & E & _); discriminate | lia].
Qed.

Lemma loop_iteration_none (c : Config) (u : Q) (now : string) (st : State) :
  compute_indicators c
    (append_bounded (price_series st) (generate_next_price (price_series st) u)) = None ->
  loop_iteration c u now st =
    Some (record_price st (generate_next_price (price_series st) u)).
Proof. intro H. unfold loop_iteration. simpl. now rewrite H. Qed.

Lemma loop_iteration_some (c : Config) (u : Q) (now : string) (st : State)
    (df : DataFrame) :
  compute_indicators c
    (append_bounded (price_series st) (generate_next_price (price_series st) u)) = Some df ->
  loop_iteration c u now st =
    try_take_signal c now (record_price st (generate_next_price (price_series st) u)) df
  /\ exists last, Pandas.iloc_last df = Some last /\
        close last = generate_next_price (price_series st) u.
Proof.
  intro H. split.
  - unfold loop_iteration. simpl. now rewrite H.
  - eexists. split; [apply (compute_indicators_last _ _ _ H)|].
    simpl. apply append_bounded_last.
Qed.

(** An iteration never raises, and it records the price and counts the tick. *)
Lemma loop_iteration_total (c : Config) (u : Q) (now : string) (st : State) :
  exists st', loop_iteration c u now st = Some st' /\
    price_series st' =
      append_bounded (price_series st) (generate_next_price (price_series st) u) /\
    tick st' = S (tick st).
Proof.
  destruct (compute_indicators c
    (append_bounded (price_series st) (generate_next_price (price_series st) u)))
    as [df|] eqn:E.
  - destruct (loop_iteration_some c u now st df E) as [-> (last & Hl & _)].
    destruct (try_cases c now (record_price st (generate_next_price (price_series st) u))
                df last Hl) as (st' & -> & [->|[(_ & _ & d & -> & _)|(p & _ & _ & _ & ->)]]);
      eexists; split; try reflexivity; split; reflexivity.
  - rewrite (loop_iteration_none c u now st E).
    eexists; split; [reflexivity|]. split; reflexivity.
Qed.

Lemma loop_invariant_initial (c : Config) : loop_invariant c (initial_state c).
Proof. split; simpl; [lia | congruence]. Qed.

Lemma loop_invariant_step (c : Config) (u : Q) (now : string) (st st' : State) :
  loop_invariant c st -> loop_iteration c u now st = Some st' -> loop_invariant c st'.
Proof.
  intros [Hb Hp] Hstep.
  set (price := generate_next_price (price_series st) u) in *.
  destruct (append_bounded_length (price_series st) price Hb) as (L1 & L2 & L3).
  assert (Hkeep : loop_invariant c (record_price st price)).
  { split; simpl; [assumption|]. intro Hn. specialize (Hp Hn). lia. }
  destruct (compute_indicators c (append_bounded (price_series st) price))
    as [df|] eqn:E.
  - destruct (loop_iteration_some c u now st df E) as [Heq (last & Hl & _)].
    fold price in Heq. rewrite Heq in Hstep.
    destruct (try_cases c now (record_price st price) df last Hl)
      as (st2 & H2 & Hcase).
    rewrite H2 in Hstep. inversion Hstep; subst st2; clear Hstep.
    destruct Hcase as [->|[(_ & _ & d & -> & Hd)|(p & _ & _ & _ & ->)]].
    + assumption.
    + split; simpl; [assumption|]. intros _.
      assert (Hpr : exists pr, Pandas.iloc_prev df = Some pr /\
                      ma_short pr <> None /\ ma_long pr <> None).
      { destruct d; destruct Hd as [_ Hd];
          [eapply upward_needs_predecessor | eapply downward_needs_predecessor];
          eassumption. }
      destruct Hpr as (pr & Epr & Hs & Hl').
      rewrite (compute_indicators_prev c _ df E) in Epr.
      destruct (compute_indicators_some c _ df E) as [Hlen _].
      destruct (Nat.leb_spec 2 (length (append_bounded (price_series st) price)));
        [|discriminate].
      inversion Epr; subst pr; clear Epr. simpl in Hs, Hl'.
      rewrite rolling_mean_available in Hs, Hl' by lia. lia.
    + split; simpl; [assumption | congruence].
  - rewrite (loop_iteration_none c u now st E) in Hstep.
    inversion Hstep; subst. assumption.
Qed.

Lemma reachable_invariant (c : Config) (st : State) :
  reachable c st -> loop_invariant c st.
Proof.
  induction 1 as [|st st' u now _ IH _ _ Hstep].
  - apply loop_invariant_initial.
  - eapply loop_invariant_step; eassumption.
Qed.

(** What one iteration does to the ledger: nothing, an open, or a close. *)
Lemma loop_step_ledger (c : Config) (u : Q) (now : string) (st : State) :
  exists st', loop_iteration c u now st = Some st' /\
    let price := generate_next_price (price_series st) u in
    (price_series st' = append_bounded (price_series st) price) /\
    ((balance st' = balance st /\ open_position st' = open_position st /\
      trade_history st' = trade_history st)
     \/ (open_position st = None /\ balance st' = balance st - TRADE_AMOUNT c /\
         trade_history st' = trade_history st /\
         exists d, open_position st' =
           Some {| entry_time := now; entry_price := price; direction := d;
                   amount := TRADE_AMOUNT c |})
     \/ (exists p, open_position st = Some p /\ open_position st' = None /\
           balance st' = balance st +
             (amount p + profit_amount (pnl_pips (direction p) (entry_price p) price)
                           (amount p)) /\
           exists ct, trade_history st' = trade_history st ++ [ct])).
Proof.
  set (price := generate_next_price (price_series st) u).
  destruct (compute_indicators c (append_bounded (price_series st) price))
    as [df|] eqn:E.
  - destruct (loop_iteration_some c u now st df E) as [Heq (last & Hl & Hc)].
    fold price in Heq, Hc. rewrite Heq.
    destruct (try_cases c now (record_price st price) df last Hl)
      as (st' & -> & [->|[(Hn & _ & d & -> & _)|(p & Hp & _ & _ & ->)]]);
      eexists; (split; [reflexivity|]); simpl; (split; [reflexivity|]).
    + left. auto.
    + right. left. simpl in Hn. rewrite Hc. repeat split; try assumption. now exists d.
    + right. right. simpl in Hp. exists p. rewrite Hc.
      repeat split; try assumption. eexists. reflexivity.
  - rewrite (loop_iteration_none c u now st E). fold price.
    eexists; (split; [reflexivity|]); simpl; (split; [reflexivity|]). left. auto.
Qed.

Lemma app_one_neq {A : Type} (xs : list A) (x : A) : xs ++ [x] <> xs.
Proof.
  intro H. apply (f_equal (@length A)) in H. rewrite length_app in H. simpl in H. lia.
Qed.

Lemma simulation_loop_reachable (c : Config) (inputs : list (Q * string))
    (st st' : State) :
  Forall (fun i => 0 <= fst i /\ fst i < 1) inputs ->
  reachable c st -> simulation_loop c inputs st = Some st' -> reachable c st'.
Proof.
  revert st. induction inputs as [|[u now] rest IH]; intros st Hin Hr Hrun; simpl in Hrun.
  - now inversion Hrun; subst.
  - inversion Hin as [|? ? [H0 H1] Hrest]; subst. simpl in H0, H1.
    destruct (loop_iteration c u now st) as [st1|] eqn:E; [|discriminate].
    apply (IH st1 Hrest); [|assumption].
    now apply (reachable_step c st st1 u now).
Qed.

Lemma sample_draws_in_range :
  Forall (fun i : Q * string => 0 <= fst i /\ fst i < 1) sample_draws.
Proof.
  unfold sample_draws. simpl. repeat constructor; simpl; lra.
Qed.

Lemma sample_state_20_reachable : reachable default_config sample_state_20.
Proof.
  apply (simulation_loop_reachable default_config (firstn 20 sample_draws)
           (initial_state default_config)).
  - pose proof sample_draws_in_range as H.
    rewrite <- (firstn_skipn 20 sample_draws) in H.
    apply Forall_app in H. exact (proj1 H).
  - apply reachable_init.
  - vm_compute. reflexivity.
Qed.

Lemma sample_state_21_reachable : reachable default_config sample_state_21.
Proof.
  apply (simulation_loop_reachable default_config sample_draws
           (initial_state default_config)).
  - apply sample_draws_in_range.
  - apply reachable_init.
  - vm_compute. reflexivity.
Qed.


(** While a position is open, the frame of the next tick is there and its
    last two rows are complete. *)
Lemma held_position_frame (c : Config) (st : State) (price : Q) :
  loop_invariant c st -> open_position st <> None ->
  exists df last pr,
    compute_indicators c (append_bounded (price_series st) price) = Some df /\
    Pandas.iloc_last df = Some last /\ close last = price /\ actionable last /\
    Pandas.iloc_prev df = Some pr /\ actionable pr.
Proof.
  intros [Hb Hp] Hn. specialize (Hp Hn). destruct Hp as (H1 & H2 & H3 & H4).
  destruct (append_bounded_length (price_series st) price Hb) as (L1 & L2 & L3).
  destruct (compute_indicators c (append_bounded (price_series st) price))
    as [df|] eqn:E.
  2:{ apply compute_indicators_none in E. lia. }
  pose proof (compute_indicators_last c _ df E) as Hl.
  assert (Hpa : exists pr, Pandas.iloc_prev df = Some pr /\ actionable pr).
  { apply (prev_actionable_iff c _ df E). lia. }
  destruct Hpa as (pr & Epr & Hpr).
  eexists df, _, pr. split; [reflexivity|]. split; [exact Hl|].
  split; [simpl; apply append_bounded_last|].
  split; [|split; assumption].
  apply (last_actionable_iff c _ df _ E Hl). lia.
Qed.

(** The change of the balance on one iteration is the one of its ledger
    action. *)
Lemma loop_step_balance (c : Config) (u : Q) (now : string) (st : State) :
  exists st', loop_iteration c u now st = Some st' /\
    match ledger_action st st' with
    | NoAction => balance st' = balance st
    | Opened stake => stake = TRADE_AMOUNT c /\ balance st' = balance st - stake
    | Closed stake profit => balance st' = balance st + (stake + profit)
    end.
Proof.
  destruct (loop_step_ledger c u now st) as (st' & E & Hs & Hcase).
  exists st'. split; [exact E|]. unfold ledger_action.
  destruct Hcase as [(Hb & Hp & Hh)|[(Hp & Hb & Hh & d & Hp')|(p & Hp & Hp' & Hb & _)]].
  - rewrite Hp. now destruct (open_position st).
  - rewrite Hp, Hp'. simpl. split; [reflexivity | exact Hb].
  - rewrite Hp, Hp'. rewrite Hs, append_bounded_last. exact Hb.
Qed.

(** The balance after a run, from the ledger actions of the run. *)
Lemma run_balance (c : Config) (inputs : list (Q * string)) (st : State) :
  exists st', simulation_loop c inputs st = Some st' /\
    balance st' == balance st - sum_opens (ledger_trace c inputs st)
                   + sum_closes (ledger_trace c inputs st).
Proof.
  revert st. induction inputs as [|[u now] rest IH]; intro st; simpl.
  - exists st. split; [reflexivity|]. ring.
  - destruct (loop_step_balance c u now st) as (st1 & E & Hb). rewrite E.
    destruct (IH st1) as (st' & Hrun & Hbal).
    exists st'. split; [exact Hrun|]. rewrite Hbal.
    destruct (ledger_action st st1) as [|stake|stake profit]; simpl.
    + rewrite Hb. reflexivity.
    + destruct Hb as [_ ->]. ring.
    + rewrite Hb. ring.
Qed.

(** The decision of an iteration does not look at the balance. *)
Lemma loop_step_ignores_balance (c : Config) (u : Q) (now : string) (st st' : State)
    (b : Q) :
  loop_iteration c u now st = Some st' ->
  exists st'', loop_iteration c u now (with_balance st b) = Some st'' /\
    open_position st'' = open_position st' /\
    trade_history st'' = trade_history st' /\
    balance st'' - b == balance st' - balance st.
Proof.
  unfold loop_iteration. simpl.
  destruct (compute_indicators c _) as [df|].
  - unfold try_take_signal. destruct (Pandas.iloc_last df) as [last|]; [|discriminate].
    destruct (Num.isna (rsi last) || Num.isna (ma_short last) || Num.isna (ma_long last)).
    + intro E; inversion E; subst. eexists. split; [reflexivity|]. simpl.
      repeat split; ring.
    + simpl. destruct (open_position st) as [p|].
      * destruct (Qle_bool _ _ || Qle_bool _ _ || ma_reverse _ _ _);
          intro E; inversion E; subst; eexists; (split; [reflexivity|]); simpl;
          repeat split; ring.
      * destruct (buy_signal last (Pandas.iloc_prev df));
          [|destruct (sell_signal last (Pandas.iloc_prev df))];
          intro E; inversion E; subst; eexists; (split; [reflexivity|]); simpl;
          repeat split; ring.
  - intro E; inversion E; subst. eexists. split; [reflexivity|]. simpl.
    repeat split; ring.
Qed.

End LoopFacts.

(** * The claims of the specification *)

Module Claims.
Import FrameFacts RsiFacts SignalFacts EngineFacts LoopFacts.

(** C1. From the flat state, on an actionable tick, a long position is opened
    exactly when the index is below 30 and the short average crossed above
    the long one between the previous and the current row; a short position
    exactly when the index is above 70 and the short average crossed below;
    were both conditions to hold, the long one wins; the position opened
    records its direction, the current price as entry price and the
    configured trade amount as stake, which is debited from the balance. *)
Theorem C1_open_from_flat (c : Config) (now : string) (st : State)
    (df : DataFrame) (last : Row) :
  open_position st = None ->
  Pandas.iloc_last df = Some last ->
  actionable last ->
  let prev := Pandas.iloc_prev df in
  exists st', try_take_signal c now st df = Some st' /\
    ((exists p, open_position st' = Some p /\ direction p = call)
       <-> long_condition prev last) /\
    ((exists p, open_position st' = Some p /\ direction p = put)
       <-> short_condition prev last) /\
    (long_condition prev last -> short_condition prev last ->
       exists p, open_position st' = Some p /\ direction p = call) /\
    (forall p, open_position st' = Some p ->
       entry_price p = close last /\ amount p = TRADE_AMOUNT c /\
       entry_time p = now /\
       balance st' = balance st - TRADE_AMOUNT c /\
       trade_history st' = trade_history st) /\
    (open_position st' = None -> st' = st).
Proof.
  intros Hp Hl Ha prev.
  rewrite (try_flat c now st df last Hl Ha Hp). fold prev.
  destruct (buy_signal last prev) eqn:B.
  - apply buy_signal_iff in B.
    eexists. split; [reflexivity|]. simpl.
    split; [|split; [|split; [|split]]].
    + split; [intros _; exact B | intros _; eexists; split; reflexivity].
    + split.
      * intros (p & E & D). inversion E; subst p. discriminate D.
      * intro S. exfalso. eapply long_short_exclusive; eassumption.
    + intros _ _. eexists. split; reflexivity.
    + intros p E. inversion E; subst p. simpl. repeat split; reflexivity.
    + discriminate.
  - assert (NB : ~ long_condition prev last).
    { intro L. apply buy_signal_iff in L. congruence. }
    destruct (sell_signal last prev) eqn:S.
    + apply sell_signal_iff in S.
      eexists. split; [reflexivity|]. simpl.
      split; [|split; [|split; [|split]]].
      * split; [|contradiction].
        intros (p & E & D). inversion E; subst p. discriminate D.
      * split; [intros _; exact S | intros _; eexists; split; reflexivity].
      * contradiction.
      * intros p E. inversion E; subst p. simpl. repeat split; reflexivity.
      * discriminate.
    + assert (NS : ~ short_condition prev last).
      { intro L. apply sell_signal_iff in L. congruence. }
      eexists. split; [reflexivity|]. rewrite Hp.
      split; [|split; [|split; [|split]]].
      * split; [intros (p & E & _); discriminate | contradiction].
      * split; [intros (p & E & _); discriminate | contradiction].
      * contradiction.
      * discriminate.
      * reflexivity.
Qed.

(** An instance: a flat state, the index at 20 and an upward cross open a
    long position. *)
Lemma C1_open_from_flat_witness :
  open_position (initial_state default_config) = None /\
  Pandas.iloc_last [sample_prev; sample_last] = Some sample_last /\
  actionable sample_last /\
  exists st',
    try_take_signal default_config "t0" (initial_state default_config)
      [sample_prev; sample_last] = Some st' /\
    exists p, open_position st' = Some p /\ direction p = call.
Proof.
  assert (Ha : actionable sample_last)
    by (unfold actionable; simpl; repeat split; discriminate).
  split; [reflexivity|]. split; [reflexivity|]. split; [exact Ha|].
  destruct (C1_open_from_flat default_config "t0" (initial_state default_config)
              [sample_prev; sample_last] sample_last eq_refl eq_refl Ha)
    as (st' & E & Hlong & _).
  exists st'. split; [exact E|]. apply Hlong.
  split.
  - exists 20, 30. repeat split; reflexivity.
  - exists sample_prev. split; [reflexivity|]. split.
    + exists 1, 2. repeat split; try reflexivity. discriminate.
    + exists 2, 3. repeat split; reflexivity.
Defined.

(** C6. When one of the three values of the current row is missing, the
    signal evaluation returns at once without raising and leaves the state
    as it was; an iteration of the loop on such a frame leaves the balance,
    the open position and the trade history unchanged. *)
Theorem C6_non_actionable_skipped (c : Config) (now : string) (st : State)
    (df : DataFrame) (last : Row) :
  Pandas.iloc_last df = Some last ->
  rsi last = None \/ ma_short last = None \/ ma_long last = None ->
  try_take_signal c now st df = Some st /\
  (forall (st0 : State) (u : Q),
     compute_indicators c
       (append_bounded (price_series st0)
          (generate_next_price (price_series st0) u)) = Some df ->
     exists st', loop_iteration c u now st0 = Some st' /\
       balance st' = balance st0 /\
       open_position st' = open_position st0 /\
       trade_history st' = trade_history st0).
Proof.
  intros Hl Hna.
  assert (Hn : ~ actionable last).
  { intros (H1 & H2 & H3). destruct Hna as [H|[H|H]]; contradiction. }
  split.
  - now apply try_skip with (last := last).
  - intros st0 u E.
    destruct (loop_iteration_some c u now st0 df E) as [-> _].
    rewrite (try_skip c now _ df last Hl Hn).
    eexists. split; [reflexivity|]. simpl. auto.
Qed.

(** An instance: a last row without its short average changes nothing. *)
Lemma C6_non_actionable_skipped_witness :
  Pandas.iloc_last [sample_prev; sample_nan] = Some sample_nan /\
  (rsi sample_nan = None \/ ma_short sample_nan = None \/ ma_long sample_nan = None) /\
  try_take_signal default_config "t0" (initial_state default_config)
    [sample_prev; sample_nan] = Some (initial_state default_config).
Proof.
  split; [reflexivity|]. split; [right; left; reflexivity|].
  apply (C6_non_actionable_skipped default_config "t0" (initial_state default_config)
           [sample_prev; sample_nan] sample_nan eq_refl).
  right. left. reflexivity.
Defined.

(** C10. A tick performs at most one ledger action. An iteration never both
    opens and closes; the iteration that opens a position starts flat and
    leaves the trade history alone, so the new position is first examined
    for a close by a later iteration; the iteration that closes a position
    appends one trade and ends flat. *)
Theorem C10_one_action_per_tick (c : Config) (u : Q) (now : string) (st : State) :
  valid_config c ->
  exists st', loop_iteration c u now st = Some st' /\
    ~ (opened st st' /\ closed st st') /\
    (opened st st' ->
       open_position st = None /\ trade_history st' = trade_history st) /\
    (closed st st' ->
       open_position st' = None /\
       exists p ct, open_position st = Some p /\
                    trade_history st' = trade_history st ++ [ct]).
Proof.
  intros _.
  destruct (loop_step_ledger c u now st) as (st' & E & _ & Hcase).
  exists st'. split; [exact E|].
  unfold opened, closed.
  destruct Hcase as [(Hb & Hp & Hh)|[(Hp & Hb & Hh & d & Hp')|(p & Hp & Hp' & Hb & ct & Hh)]].
  - split; [|split].
    + intros [_ Hc]. contradiction.
    + intros (q & Hq & Hnq). rewrite Hp in Hq. contradiction.
    + intro Hc. contradiction.
  - split; [|split].
    + intros [_ Hc]. contradiction.
    + intros _. split; assumption.
    + intro Hc. contradiction.
  - split; [|split].
    + intros [(q & Hq & _) _]. congruence.
    + intros (q & Hq & _). congruence.
    + intros _. split; [assumption|]. now exists p, ct.
Qed.

(** An instance: the first tick of the default configuration. *)
Lemma C10_one_action_per_tick_witness :
  valid_config default_config /\
  exists st', loop_iteration default_config (1 # 2) "t0" (initial_state default_config)
                = Some st' /\
              ~ (opened (initial_state default_config) st' /\
                 closed (initial_state default_config) st').
Proof.
  assert (Hv : valid_config default_config) by (unfold valid_config; simpl; lia).
  split; [exact Hv|].
  destruct (C10_one_action_per_tick default_config (1 # 2) "t0"
              (initial_state default_config) Hv) as (st' & E & H & _).
  exists st'. split; assumption.
Defined.

(** C8. The price history only grows at its end and holds at most the 500
    most recent points: in every reachable state it has at most 500
    elements; an iteration puts the generated price last; below the bound it
    appends and nothing else; at the bound it drops the oldest element and
    keeps the others in their order. *)
Theorem C8_price_history_bounded (c : Config) (u : Q) (now : string) (st : State) :
  valid_config c ->
  reachable c st ->
  let price := generate_next_price (price_series st) u in
  (length (price_series st) <= 500)%nat /\
  exists st', loop_iteration c u now st = Some st' /\
    (length (price_series st') <= 500)%nat /\
    List.last (price_series st') 0 = price /\
    ((length (price_series st) < 500)%nat ->
       price_series st' = price_series st ++ [price]) /\
    ((length (price_series st) = 500)%nat ->
       price_series st' = tl (price_series st) ++ [price] /\
       length (price_series st') = 500%nat).
Proof.
  intros _ Hr price.
  destruct (reachable_invariant c st Hr) as [Hb _].
  split; [exact Hb|].
  destruct (loop_iteration_total c u now st) as (st' & E & Hs & _).
  fold price in Hs.
  exists st'. split; [exact E|]. rewrite Hs.
  destruct (append_bounded_length (price_series st) price Hb) as (L1 & L2 & L3).
  destruct (append_bounded_cases (price_series st) price) as [C1 C2].
  split; [exact L1|]. split; [apply append_bounded_last|]. split.
  - exact C1.
  - intro H500. rewrite C2 by lia. split; [reflexivity|].
    rewrite length_app. simpl.
    destruct (price_series st); simpl in *; lia.
Qed.

(** An instance: the first tick appends the first price to the empty history. *)
Lemma C8_price_history_bounded_witness :
  valid_config default_config /\
  reachable default_config (initial_state default_config) /\
  exists st', loop_iteration default_config (1 # 2) "t0" (initial_state default_config)
                = Some st' /\
              price_series st' = [generate_next_price [] (1 # 2)].
Proof.
  assert (Hv : valid_config default_config) by (unfold valid_config; simpl; lia).
  split; [exact Hv|]. split; [apply reachable_init|].
  destruct (C8_price_history_bounded default_config (1 # 2) "t0"
              (initial_state default_config) Hv (reachable_init default_config))
    as (_ & st' & E & _ & _ & Happ & _).
  exists st'. split; [exact E|]. apply Happ. simpl. lia.
Defined.

(** C5. The indicator engine returns nothing exactly when the history is
    shorter than [max(RSI_WINDOW, MA_LONG) + 1]; from that length on it
    returns a frame whose last row is that of the latest price and holds the
    index, the long average (the mean of the last [MA_LONG] prices) and the
    cell of the short average (the mean of the last [MA_SHORT] prices, once
    that many are there). *)
Theorem C5_indicator_threshold (c : Config) (prices : list Q) :
  valid_config c ->
  let need := (Nat.max (RSI_WINDOW c) (MA_LONG c) + 1)%nat in
  (compute_indicators c prices = None <-> (length prices < need)%nat) /\
  ((need <= length prices)%nat ->
   exists df last r l,
     compute_indicators c prices = Some df /\
     length df = length prices /\
     Pandas.iloc_last df = Some last /\
     close last = List.last prices 0 /\
     rsi last = Some r /\
     ma_long last = Some l /\
     Pandas.window_mean (MA_LONG c) prices = Some l /\
     ma_short last = Pandas.window_mean (MA_SHORT c) prices).
Proof.
  intros (Hr & Hs & Hl) need. split; [apply compute_indicators_none|].
  intro Hlen.
  destruct (compute_indicators c prices) as [df|] eqn:E.
  2:{ apply compute_indicators_none in E. fold need in E. lia. }
  pose proof (compute_indicators_last c prices df E) as Hlast.
  destruct (compute_indicators_some c prices df E) as [_ Hdf].
  assert (Hfull : firstn (S (length prices - 1)) prices = prices).
  { apply firstn_all2. lia. }
  assert (Hrsi : nth (length prices - 1) (Ta.rsi_series (RSI_WINDOW c) prices) None <> None).
  { apply rsi_series_available; unfold need in Hlen; lia. }
  assert (Hml : nth (length prices - 1) (Pandas.rolling_mean (MA_LONG c) prices) None <> None).
  { apply rolling_mean_available; unfold need in Hlen; lia. }
  destruct (nth (length prices - 1) (Ta.rsi_series (RSI_WINDOW c) prices) None)
    as [r|] eqn:Er; [|congruence].
  destruct (nth (length prices - 1) (Pandas.rolling_mean (MA_LONG c) prices) None)
    as [l|] eqn:El; [|congruence].
  eexists df, _, r, l. split; [reflexivity|].
  split; [rewrite Hdf; apply frame_length|].
  split; [exact Hlast|]. simpl.
  split; [reflexivity|]. split; [reflexivity|]. split; [reflexivity|].
  unfold need in Hlen.
  rewrite rolling_mean_nth in El by lia. rewrite Hfull in El.
  split; [exact El|].
  rewrite rolling_mean_nth by lia. now rewrite Hfull.
Qed.

(** An instance: three prices are too few for the default windows. *)
Lemma C5_indicator_threshold_witness :
  valid_config default_config /\
  (compute_indicators default_config [1; 2; 3] = None <-> (3 < 21)%nat).
Proof.
  assert (Hv : valid_config default_config) by (unfold valid_config; simpl; lia).
  split; [exact Hv|].
  exact (proj1 (C5_indicator_threshold default_config [1; 2; 3] Hv)).
Defined.

(** C2. On every tick with a position open, the position is closed exactly
    when the profit in pips is at least 5, or at most -10, or the averages
    cross against the position; the profit in pips is the move of the price
    in the direction of the position times 10000, as binary64 arithmetic
    gives it; a close credits the stake
    and the profit amount [(pnl / 10) * (stake / 100)] to the balance,
    appends one closed trade and leaves no position; otherwise the position,
    the balance and the history stay as they were. *)
Theorem C2_close_rule (c : Config) (u : Q) (now : string) (st : State) (p : Position) :
  valid_config c ->
  reachable c st ->
  open_position st = Some p ->
  let price := generate_next_price (price_series st) u in
  exists st' df last,
    loop_iteration c u now st = Some st' /\
    compute_indicators c (price_series st') = Some df /\
    Pandas.iloc_last df = Some last /\ close last = price /\
    let prev := Pandas.iloc_prev df in
    let pnl := pnl_pips (direction p) (entry_price p) price in
    pnl = Float64.to_Q
            match direction p with
            | call =>
                Float64.mul (Float64.sub (Float64.of_Q price)
                               (Float64.of_Q (entry_price p)))
                  (Float64.of_Z 10000)
            | put =>
                Float64.mul (Float64.sub (Float64.of_Q (entry_price p))
                               (Float64.of_Q price))
                  (Float64.of_Z 10000)
            end /\
    (open_position st' = None <-> close_condition p prev last) /\
    (close_condition p prev last ->
       open_position st' = None /\
       balance st' = balance st + (amount p + (pnl / 10) * (amount p / 100)) /\
       trade_history st' = trade_history st ++ [closed_trade now p last]) /\
    (~ close_condition p prev last ->
       open_position st' = Some p /\ balance st' = balance st /\
       trade_history st' = trade_history st).
Proof.
  intros _ Hr Hp price.
  pose proof (reachable_invariant c st Hr) as Hinv.
  assert (Hn : open_position st <> None) by congruence.
  destruct (held_position_frame c st price Hinv Hn)
    as (df & last & pr & E & Hl & Hc & Ha & _ & _).
  destruct (loop_iteration_some c u now st df E) as [Heq _]. fold price in Heq.
  rewrite (try_held c now (record_price st price) df last p Hl Ha Hp) in Heq.
  pose proof (close_test_iff p last (Pandas.iloc_prev df)) as Htest.
  destruct (Qle_bool _ _ || Qle_bool _ _ || ma_reverse _ _ _) eqn:T.
  - assert (Hcc : close_condition p (Pandas.iloc_prev df) last)
      by now apply Htest.
    exists (close_state now (record_price st price) p last), df, last.
    split; [exact Heq|]. split; [exact E|]. split; [exact Hl|]. split; [exact Hc|].
    simpl. split; [reflexivity|].
    split; [tauto|]. split.
    + intros _. rewrite <- Hc. repeat split; reflexivity.
    + intro Hncc. contradiction.
  - assert (Hncc : ~ close_condition p (Pandas.iloc_prev df) last).
    { intro Hcc. apply Htest in Hcc. discriminate. }
    exists (record_price st price), df, last.
    split; [exact Heq|]. split; [exact E|]. split; [exact Hl|]. split; [exact Hc|].
    simpl. split; [reflexivity|].
    split; [|split].
    + split; [intro H0; congruence | intro Hcc; contradiction].
    + intro Hcc. contradiction.
    + intros _. split; [exact Hp|]. split; reflexivity.
Qed.

(** An instance: the long position of the sample run, entered at 1.09892, is
    closed by a rise to 1.09978, 8.6000000000008292 pips in binary64, with
    a profit amount that rounds to 0.086. *)
Lemma C2_close_rule_witness :
  valid_config default_config /\
  reachable default_config sample_state_21 /\
  open_position sample_state_21 = Some sample_position /\
  exists st', loop_iteration default_config (99 # 100) "t" sample_state_21 = Some st' /\
    open_position st' = None /\
    (length (trade_history st') = 1)%nat /\
    Num.round (balance st') 6 == 1000.086.
Proof.
  assert (Hv : valid_config default_config) by (unfold valid_config; simpl; lia).
  split; [exact Hv|]. split; [exact sample_state_21_reachable|].
  split; [reflexivity|].
  destruct (C2_close_rule default_config (99 # 100) "t" sample_state_21 sample_position
              Hv sample_state_21_reachable eq_refl)
    as (st' & df & last & E & _ & _ & Hc & _ & _ & Hclose & _).
  exists st'. split; [exact E|].
  assert (Hcc : close_condition sample_position (Pandas.iloc_prev df) last).
  { left. rewrite Hc. vm_compute. discriminate. }
  destruct (Hclose Hcc) as (Hp & Hb & Hh).
  split; [exact Hp|]. split.
  - rewrite Hh. reflexivity.
  - rewrite Hb. vm_compute. reflexivity.
Defined.




(** C3. An iteration changes the balance by exactly minus the stake when it
    opens, by exactly the stake plus the profit amount when it closes, and
    not at all otherwise; hence after any run the balance is the starting
    balance, minus the stakes of the opens, plus the stakes and profit
    amounts of the closes. No test of the balance guards an open: the
    decision of an iteration is the same whatever the balance, and a run can
    end with a negative balance. *)
Theorem C3_balance_accounting (c : Config) (inputs : list (Q * string)) :
  valid_config c ->
  (forall (st : State) (u : Q) (now : string),
     exists st', loop_iteration c u now st = Some st' /\
       match ledger_action st st' with
       | NoAction => balance st' = balance st
       | Opened stake => stake = TRADE_AMOUNT c /\ balance st' = balance st - stake
       | Closed stake profit => balance st' = balance st + (stake + profit)
       end) /\
  (exists st, simulation_loop c inputs (initial_state c) = Some st /\
     balance st ==
       START_BALANCE c - sum_opens (ledger_trace c inputs (initial_state c))
       + sum_closes (ledger_trace c inputs (initial_state c))) /\
  (forall (st st' : State) (u : Q) (now : string) (b : Q),
     loop_iteration c u now st = Some st' ->
     exists st'', loop_iteration c u now (with_balance st b) = Some st'' /\
       open_position st'' = open_position st' /\
       trade_history st'' = trade_history st' /\
       balance st'' - b == balance st' - balance st) /\
  (exists st, simulation_loop poor_config sample_draws (initial_state poor_config)
                = Some st /\
              ledger_trace poor_config sample_draws (initial_state poor_config)
                = repeat NoAction 20 ++ [Opened 10] /\
              balance st == - (5)).
Proof.
  intros _. split; [|split; [|split]].
  - intros st u now. apply loop_step_balance.
  - apply (run_balance c inputs (initial_state c)).
  - intros st st' u now b. apply loop_step_ignores_balance.
  - eexists. split; [vm_compute; reflexivity|]. split; [vm_compute; reflexivity|].
    vm_compute. reflexivity.
Qed.

(** An instance: a run with one open and one close. *)
Lemma C3_balance_accounting_witness :
  valid_config default_config /\
  exists st,
    simulation_loop default_config round_trip_draws (initial_state default_config)
      = Some st /\
    balance st ==
      START_BALANCE default_config
      - sum_opens (ledger_trace default_config round_trip_draws
                     (initial_state default_config))
      + sum_closes (ledger_trace default_config round_trip_draws
                      (initial_state default_config)) /\
    sum_opens (ledger_trace default_config round_trip_draws
                 (initial_state default_config)) == 10 /\
    Num.round (sum_closes (ledger_trace default_config round_trip_draws
                             (initial_state default_config))) 6 == 10.086.
Proof.
  assert (Hv : valid_config default_config) by (unfold valid_config; simpl; lia).
  split; [exact Hv|].
  destruct (proj1 (proj2 (C3_balance_accounting default_config round_trip_draws Hv)))
    as (st & E & Hb).
  exists st. split; [exact E|]. split; [exact Hb|].
  split; vm_compute; reflexivity.
Defined.

(** C9. The price generator depends on the history only through its last
    point and on the generator only through the number drawn: on an empty
    history it returns [base] plus a uniform shift within [delta0]; otherwise
    the last price times one plus a uniform shock within [delta1]; [delta1],
    0.0008, is smaller than [delta0], 0.005, and [base] is 1.1; the result is
    rounded to five decimals: a multiple of 0.00001 within half of one of the
    value rounded. *)
Theorem C9_price_generator (hist : list Q) (last u : Q) :
  0 <= u -> u < 1 ->
  let s0 := Num.uniform (- delta0) delta0 u in
  let s1 := Num.uniform (- delta1) delta1 u in
  generate_next_price [] u = Num.round (base + s0) 5 /\
  (- delta0 <= s0 /\ s0 < delta0) /\
  generate_next_price (hist ++ [last]) u = Num.round (last * (1 + s1)) 5 /\
  (- delta1 <= s1 /\ s1 < delta1) /\
  delta1 < delta0 /\ delta0 == 0.005 /\ delta1 == 0.0008 /\ base == 1.1 /\
  (forall x : Q, exists k : Z,
     Num.round x 5 == inject_Z k / 100000 /\
     Qabs (Num.round x 5 - x) <= 1 / 200000).
Proof.
  intros H0 H1 s0 s1.
  split; [reflexivity|]. split.
  { unfold s0, Num.uniform, delta0. split; lra. }
  split.
  { unfold generate_next_price. rewrite last_last.
    destruct hist; reflexivity. }
  split.
  { unfold s1, Num.uniform, delta1. split; lra. }
  split; [unfold delta0, delta1; lra|].
  split; [reflexivity|]. split; [reflexivity|]. split; [reflexivity|].
  intro x. destruct (NumFacts.round_spec x 5) as (k & Hk & Hn).
  exists k. split; [exact Hk|].
  eapply Qle_trans; [exact Hn|]. vm_compute. discriminate.
Qed.

(** An instance: the draw 1/2 is the middle of both intervals. *)
Lemma C9_price_generator_witness :
  0 <= 1 # 2 /\ 1 # 2 < 1 /\
  generate_next_price [] (1 # 2) == 1.1 /\
  generate_next_price ([1.2] ++ [1.1]) (1 # 2) = Num.round (1.1 * (1 + 0)) 5.
Proof.
  split; [lra|]. split; [lra|]. split; [vm_compute; reflexivity|].
  assert (H0 : 0 <= 1 # 2) by lra. assert (H1 : 1 # 2 < 1) by lra.
  destruct (C9_price_generator [1.2] 1.1 (1 # 2) H0 H1) as (_ & _ & E & _).
  rewrite E. vm_compute. reflexivity.
Defined.

(** C7. For a window of at least one period and every index from
    [window - 1] on, the relative-strength index of a price sequence is
    defined and lies between 0 and 100; where the average loss is zero it
    is 100, and elsewhere it is [100 - 100 / (1 + RS)] for the ratio [RS] of
    average gain to average loss. *)
Theorem C7_rsi_range (window : nat) (prices : list Q) (i : nat) :
  (1 <= window)%nat -> (window <= S i)%nat -> (i < length prices)%nat ->
  exists r : Q,
    nth i (Ta.rsi_series window prices) None = Some r /\
    0 <= r /\ r <= 100 /\
    (Ta.emadn window prices i == 0 -> r = 100) /\
    (~ Ta.emadn window prices i == 0 ->
       r = 100 - 100 / (1 + Ta.emaup window prices i / Ta.emadn window prices i)).
Proof.
  intros Hw Hi Hlen.
  rewrite rsi_series_nth by assumption. unfold Ta.mask.
  destruct (Nat.ltb_spec (S i) window) as [H|_]; [lia|].
  eexists. split; [reflexivity|].
  destruct (rsi_value_bounds (Ta.emaup window prices i) (Ta.emadn window prices i)
              (emaup_nonneg window prices i Hw) (emadn_nonneg window prices i Hw))
    as [B0 B1].
  split; [exact B0|]. split; [exact B1|]. unfold Ta.rsi_value. split.
  - intro Hz. apply Qeq_bool_iff in Hz. now rewrite Hz.
  - intro Hnz. destruct (Qeq_bool (Ta.emadn window prices i) 0) eqn:E; [|reflexivity].
    apply Qeq_bool_iff in E. contradiction.
Qed.

(** An instance: rising prices have no loss, and the index is 100. *)
Lemma C7_rsi_range_witness :
  (1 <= 2)%nat /\ (2 <= 3)%nat /\ (2 < length rising_prices)%nat /\
  nth 2 (Ta.rsi_series 2 rising_prices) None = Some 100.
Proof.
  split; [lia|]. split; [lia|]. split; [simpl; lia|].
  destruct (C7_rsi_range 2 rising_prices 2) as (r & E & _ & _ & Hz & _);
    [lia | lia | simpl; lia |].
  rewrite E. f_equal. apply Hz. vm_compute. reflexivity.
Defined.

End Claims.

(** * Further properties of the code *)

(** ** Prices, the ledger over a run, the views and the log *)

Module ExtraFacts.
Import FrameFacts RsiFacts SignalFacts EngineFacts LoopFacts.

Lemma is_price_lower (p : Q) : is_price p -> 1 # 100000 <= p.
Proof.
  intros (k & Hk & E). rewrite E.
  assert (H : 1 <= inject_Z k) by (change 1 with (inject_Z 1); rewrite <- Zle_Qle; lia).
  apply Qle_shift_div_l; [reflexivity|].
  assert (E2 : (1 # 100000) * 100000 == 1) by reflexivity. rewrite E2. exact H.
Qed.

Lemma round_5_price (x : Q) : 1 # 2 < x * 100000 -> is_price (Num.round x 5).
Proof.
  intro H.
  destruct (NumFacts.round_half_even_near (x * inject_Z (Num.pow10 5))) as [_ Hhi].
  change (inject_Z (Num.pow10 5)) with 100000 in Hhi.
  exists (Num.round_half_even (x * 100000)). split; [|reflexivity].
  assert (Hpos : 0 < inject_Z (Num.round_half_even (x * 100000))) by lra.
  change 0 with (inject_Z 0) in Hpos. rewrite <- Zlt_Qlt in Hpos. lia.
Qed.

Lemma first_price_is_price (u : Q) :
  0 <= u -> u < 1 -> is_price (generate_next_price [] u).
Proof.
  intros H0 H1. unfold generate_next_price. apply round_5_price.
  unfold base, Num.uniform, delta0. lra.
Qed.

Lemma next_price_is_price (hist : list Q) (last u : Q) :
  is_price last -> 0 <= u -> u < 1 ->
  is_price (generate_next_price (hist ++ [last]) u).
Proof.
  intros Hp H0 H1. apply is_price_lower in Hp.
  assert (E : generate_next_price (hist ++ [last]) u
              = Num.round (last * (1 + Num.uniform (- delta1) delta1 u)) 5).
  { unfold generate_next_price. rewrite last_last. now destruct hist. }
  rewrite E. apply round_5_price.
  set (t := 1 + Num.uniform (- delta1) delta1 u).
  assert (Ht : (9992 # 10000) <= t) by (unfold t, Num.uniform, delta1; lra).
  assert (A : (1 # 100000) * ((9992 # 10000)) <= last * ((9992 # 10000)))
    by (apply Qmult_le_compat_r; [exact Hp | lra]).
  assert (B : last * ((9992 # 10000)) <= last * t)
    by (apply Qmult_le_l; [lra | exact Ht]).
  assert (C : (1 # 100000) * ((9992 # 10000)) <= last * t) by (eapply Qle_trans; eassumption).
  set (v := last * t) in *. lra.
Qed.

Lemma append_bounded_Forall (P : Q -> Prop) (ps : list Q) (p : Q) :
  Forall P ps -> P p -> Forall P (append_bounded ps p).
Proof.
  intros Hps Hp. unfold append_bounded.
  assert (H : Forall P (ps ++ [p])) by (apply Forall_app; split; [assumption | now constructor]).
  destruct (500 <? length (ps ++ [p]))%nat; [|exact H].
  destruct (ps ++ [p]); [constructor | now inversion H].
Qed.

Lemma generated_price_is_price (ps : list Q) (u : Q) :
  Forall is_price ps -> 0 <= u -> u < 1 -> is_price (generate_next_price ps u).
Proof.
  intros Hps H0 H1. destruct ps as [|x r] using rev_ind.
  - now apply first_price_is_price.
  - apply Forall_app in Hps. destruct Hps as [_ Hx]. inversion Hx; subst.
    now apply next_price_is_price.
Qed.

Lemma reachable_prices (c : Config) (st : State) :
  reachable c st -> Forall is_price (price_series st).
Proof.
  induction 1 as [|st st' u now _ IH H0 H1 Hstep].
  - constructor.
  - destruct (loop_iteration_total c u now st) as (st2 & E & Hs & _).
    rewrite Hstep in E. inversion E; subst st2. rewrite Hs.
    apply append_bounded_Forall; [exact IH|].
    now apply generated_price_is_price.
Qed.

Lemma append_bounded_length_exact (ps : list Q) (p : Q) :
  (length ps <= 500)%nat ->
  length (append_bounded ps p) = Nat.min (S (length ps)) 500.
Proof.
  intro Hb. destruct (append_bounded_cases ps p) as [H1 H2].
  destruct (Nat.lt_ge_cases (length ps) 500) as [H|H].
  - rewrite H1 by assumption. rewrite length_app. simpl. lia.
  - rewrite H2 by assumption. rewrite length_app. simpl.
    destruct ps; simpl in *; lia.
Qed.

Lemma reachable_tick_length (c : Config) (st : State) :
  reachable c st -> length (price_series st) = Nat.min (tick st) 500.
Proof.
  induction 1 as [|st st' u now Hr IH _ _ Hstep].
  - reflexivity.
  - destruct (loop_iteration_total c u now st) as (st2 & E & Hs & Ht).
    rewrite Hstep in E. inversion E; subst st2. rewrite Hs, Ht.
    rewrite append_bounded_length_exact by (rewrite IH; lia). rewrite IH. lia.
Qed.

Lemma price_step_bound (hist : list Q) (last u : Q) :
  0 <= u -> u < 1 -> 0 <= last ->
  last * (9992 # 10000) - (5 # 1000000) <= generate_next_price (hist ++ [last]) u /\
  generate_next_price (hist ++ [last]) u <= last * (10008 # 10000) + (5 # 1000000).
Proof.
  intros H0 H1 Hl.
  assert (E : generate_next_price (hist ++ [last]) u
              = Num.round (last * (1 + Num.uniform (- delta1) delta1 u)) 5).
  { unfold generate_next_price. rewrite last_last. now destruct hist. }
  rewrite E.
  set (t := 1 + Num.uniform (- delta1) delta1 u).
  assert (Ht : (9992 # 10000) <= t /\ t <= (10008 # 10000))
    by (unfold t, Num.uniform, delta1; split; lra).
  destruct Ht as [Ht1 Ht2].
  assert (A : last * (9992 # 10000) <= last * t).
  { rewrite (Qmult_comm last (9992 # 10000)), (Qmult_comm last t).
    apply Qmult_le_compat_r; assumption. }
  assert (B : last * t <= last * (10008 # 10000)).
  { rewrite (Qmult_comm last (10008 # 10000)), (Qmult_comm last t).
    apply Qmult_le_compat_r; assumption. }
  destruct (NumFacts.round_spec (last * t) 5) as (_ & _ & Hn).
  apply Qabs_Qle_condition in Hn.
  change ((1 # 2) / inject_Z (Num.pow10 5)) with ((1 # 2) / 100000) in Hn.
  assert (E5 : (1 # 2) / 100000 == 5 # 1000000) by reflexivity.
  rewrite E5 in Hn.
  set (v := last * t) in *. set (r := Num.round v 5) in *.
  destruct Hn as [Hn1 Hn2]. split; lra.
Qed.

Lemma loop_step_precise (c : Config) (u : Q) (now : string) (st : State) :
  let price := generate_next_price (price_series st) u in
  exists st', loop_iteration c u now st = Some st' /\
    (st' = record_price st price
     \/ (open_position st = None /\
         exists d, st' = set_ledger (record_price st price) (balance st - TRADE_AMOUNT c)
                          (Some {| entry_time := now; entry_price := price;
                                   direction := d; amount := TRADE_AMOUNT c |})
                          (trade_history st))
     \/ (exists p last, open_position st = Some p /\ close last = price /\
           st' = close_state now (record_price st price) p last)).
Proof.
  intro price.
  destruct (compute_indicators c (append_bounded (price_series st) price))
    as [df|] eqn:E.
  - destruct (loop_iteration_some c u now st df E) as [Heq (last & Hl & Hc)].
    fold price in Heq, Hc. rewrite Heq.
    destruct (try_cases c now (record_price st price) df last Hl)
      as (st' & -> & [->|[(Hn & _ & d & -> & _)|(p & Hp & _ & _ & ->)]]);
      eexists; (split; [reflexivity|]).
    + now left.
    + right. left. split; [exact Hn|]. exists d. unfold open_state. now rewrite Hc.
    + right. right. exists p, last. auto.
  - rewrite (loop_iteration_none c u now st E). fold price.
    eexists. split; [reflexivity|]. now left.
Qed.

Lemma loop_step_account (c : Config) (u : Q) (now : string) (st : State) :
  exists st', loop_iteration c u now st = Some st' /\
    let a := ledger_action st st' in
    (count_opens [a] + open_count st = count_closes [a] + open_count st')%nat /\
    (length (trade_history st') = length (trade_history st) + count_closes [a])%nat /\
    balance st' + held st' == balance st + held st + sum_profits [a] /\
    (exists newer, trade_history st' = trade_history st ++ newer) /\
    tick st' = S (tick st) /\
    (2 * length (trade_history st') + open_count st'
      <= S (2 * length (trade_history st) + open_count st))%nat.
Proof.
  destruct (loop_step_ledger c u now st) as (st' & E & Hs & Hcase).
  destruct (loop_iteration_total c u now st) as (st2 & E2 & _ & Ht).
  rewrite E in E2. inversion E2; subst st2; clear E2.
  exists st'. split; [exact E|]. unfold ledger_action, held, open_count.
  destruct Hcase as [(Hb & Hp & Hh)|[(Hp & Hb & Hh & d & Hp')|(p & Hp & Hp' & Hb & ct & Hh)]].
  - rewrite Hp, Hh, Hb.
    assert (Hnew : exists newer, trade_history st = trade_history st ++ newer)
      by (exists []; now rewrite app_nil_r).
    destruct (open_position st); simpl.
    + split; [lia|]. split; [lia|]. split; [ring|]. split; [exact Hnew|].
      split; [exact Ht | lia].
    + split; [lia|]. split; [lia|]. split; [ring|]. split; [exact Hnew|].
      split; [exact Ht | lia].
  - rewrite Hp, Hp', Hh, Hb. simpl.
    split; [lia|]. split; [lia|]. split; [ring|].
    split; [exists []; now rewrite app_nil_r|]. split; [exact Ht | lia].
  - rewrite Hp, Hp', Hh, Hb. rewrite Hs, append_bounded_last. simpl.
    rewrite length_app. simpl.
    split; [lia|]. split; [lia|]. split; [ring|].
    split; [now exists [ct]|]. split; [exact Ht | lia].
Qed.

Lemma run_account (c : Config) (inputs : list (Q * string)) (st : State) :
  exists st', simulation_loop c inputs st = Some st' /\
    let tr := ledger_trace c inputs st in
    (count_opens tr + open_count st = count_closes tr + open_count st')%nat /\
    (length (trade_history st') = length (trade_history st) + count_closes tr)%nat /\
    balance st' + held st' == balance st + held st + sum_profits tr /\
    (exists newer, trade_history st' = trade_history st ++ newer /\
                   (length newer <= length inputs)%nat) /\
    (tick st' = tick st + length inputs)%nat.
Proof.
  revert st. induction inputs as [|[u now] rest IH]; intro st; simpl.
  - exists st. split; [reflexivity|]. simpl.
    split; [lia|]. split; [lia|]. split; [ring|].
    split; [exists []; split; [now rewrite app_nil_r | simpl; lia]|]. lia.
  - destruct (loop_step_account c u now st) as (st1 & E & A1 & A2 & A3 & (n1 & A4) & A5 & _).
    rewrite E. destruct (IH st1) as (st' & Hrun & B1 & B2 & B3 & (n2 & B4 & B4') & B5).
    exists st'. split; [exact Hrun|].
    assert (Hn1 : length n1 = count_closes [ledger_action st st1]).
    { apply (f_equal (@length ClosedTrade)) in A4. rewrite length_app in A4. lia. }
    assert (Hnew : exists newer, trade_history st' = trade_history st ++ newer /\
                     (length newer <= S (length rest))%nat).
    { exists (n1 ++ n2). split.
      - rewrite B4, A4. now rewrite app_assoc.
      - rewrite length_app, Hn1.
        destruct (ledger_action st st1); simpl; lia. }
    destruct (ledger_action st st1) as [|stake|stake profit]; simpl in *.
    + split; [lia|]. split; [lia|]. split; [rewrite B3; rewrite A3; ring|].
      split; [exact Hnew | lia].
    + split; [lia|]. split; [lia|]. split; [rewrite B3; rewrite A3; ring|].
      split; [exact Hnew | lia].
    + split; [lia|]. split; [lia|]. split; [rewrite B3; rewrite A3; ring|].
      split; [exact Hnew | lia].
Qed.

Lemma reachable_trades_take_ticks (c : Config) (st : State) :
  reachable c st ->
  (2 * length (trade_history st) + open_count st <= tick st)%nat.
Proof.
  induction 1 as [|st st' u now Hr IH H0 H1 Hstep].
  - unfold open_count. simpl. lia.
  - destruct (loop_step_account c u now st) as (st2 & E & _ & _ & _ & _ & Ht & Hle).
    rewrite Hstep in E. inversion E; subst st2. lia.
Qed.

Lemma try_take_signal_raises (c : Config) (now : string) (st : State) (df : DataFrame) :
  try_take_signal c now st df = None <-> df = [].
Proof.
  split.
  - intro H. destruct df as [|r df']; [reflexivity|].
    destruct (iloc_last_some (r :: df')) as (last & Hl); [simpl; lia|].
    destruct (try_cases c now st (r :: df') last Hl) as (st' & E & _). congruence.
  - intros ->. reflexivity.
Qed.

Lemma frame_previous_row (c : Config) (prices : list Q) (df : DataFrame) :
  valid_config c -> compute_indicators c prices = Some df ->
  length df = length prices /\
  exists prev, Pandas.iloc_prev df = Some prev /\
    close prev = nth (length prices - 2) prices 0 /\
    rsi prev <> None /\ ma_long prev <> None /\
    (ma_short prev <> None <-> (MA_SHORT c + 1 <= length prices)%nat).
Proof.
  intros (Hr & Hs & Hl) E.
  pose proof (compute_indicators_prev c prices df E) as Hprev.
  destruct (compute_indicators_some c prices df E) as [Hlen ->].
  split; [apply frame_length|].
  destruct (Nat.leb_spec 2 (length prices)); [|lia].
  eexists. split; [exact Hprev|]. simpl.
  split; [reflexivity|].
  rewrite rsi_series_available, !rolling_mean_available by lia. lia.
Qed.

Lemma first_price_range (u : Q) :
  0 <= u -> u < 1 ->
  1095 # 1000 <= generate_next_price [] u /\ generate_next_price [] u <= 1105 # 1000.
Proof.
  intros H0 H1. unfold generate_next_price.
  set (x := base + Num.uniform (- delta0) delta0 u).
  assert (Hx : 1095 # 1000 <= x /\ x <= 1105 # 1000)
    by (unfold x, base, Num.uniform, delta0; split; lra).
  destruct (NumFacts.round_half_even_near (x * inject_Z (Num.pow10 5))) as [Hlo Hhi].
  change (inject_Z (Num.pow10 5)) with 100000 in Hlo, Hhi.
  unfold Num.round. change (inject_Z (Num.pow10 5)) with 100000.
  set (k := Num.round_half_even (x * 100000)) in *.
  assert (Hk1 : (109500 <= k)%Z).
  { assert (H : inject_Z 109499 < inject_Z k) by (change (inject_Z 109499) with 109499; lra).
    rewrite <- Zlt_Qlt in H. lia. }
  assert (Hk2 : (k <= 110500)%Z).
  { assert (H : inject_Z k < inject_Z 110501) by (change (inject_Z 110501) with 110501; lra).
    rewrite <- Zlt_Qlt in H. lia. }
  rewrite Zle_Qle in Hk1, Hk2.
  change (inject_Z 109500) with 109500 in Hk1. change (inject_Z 110500) with 110500 in Hk2.
  split.
  - apply Qle_shift_div_l; [reflexivity|]. lra.
  - apply Qle_shift_div_r; [reflexivity|]. lra.
Qed.

Lemma frame_close_column (c : Config) (prices : list Q) (df : DataFrame) :
  compute_indicators c prices = Some df -> map close df = prices.
Proof.
  intro E. destruct (compute_indicators_some c prices df E) as [_ ->].
  unfold Pandas.frame. rewrite map_map. simpl.
  apply nth_ext with (d := 0) (d' := 0).
  - now rewrite length_map, length_seq.
  - intros n Hn. rewrite length_map, length_seq in Hn.
    rewrite (nth_indep _ 0 (nth 0 prices 0)) by now rewrite length_map, length_seq.
    rewrite (map_nth (fun i => nth i prices 0) (seq 0 (length prices)) 0%nat n).
    now rewrite seq_nth.
Qed.

Lemma status_reachable (c : Config) (st : State) :
  reachable c st ->
  (sv_latest_price (status st) = None <-> sv_tick (status st) = 0%nat) /\
  (forall p, sv_latest_price (status st) = Some p -> is_price p) /\
  Qabs (sv_balance (status st) - balance st) <= 5 # 10000000 /\
  (2 * sv_trades_count (status st) + open_count st <= sv_tick (status st))%nat.
Proof.
  intro Hr.
  pose proof (reachable_tick_length c st Hr) as Hlen.
  pose proof (reachable_prices c st Hr) as Hq.
  split; [|split; [|split]].
  - simpl. destruct (price_series st) eqn:E; simpl in Hlen.
    + split; [intros _; lia | reflexivity].
    + split; [discriminate | intro H0; rewrite H0 in Hlen; discriminate].
  - unfold status. cbn [sv_latest_price]. intros p Hp.
    revert Hq Hp. generalize (price_series st). intros ps Hq Hp.
    destruct ps as [|x r]; [discriminate|]. inversion Hp; subst p.
    assert (Hin : In (List.last (x :: r) 0) (x :: r)).
    { destruct (exists_last (l := x :: r)) as (l' & a & ->); [discriminate|].
      rewrite last_last. apply in_or_app. right. now left. }
    exact (proj1 (Forall_forall _ _) Hq _ Hin).
  - simpl. destruct (NumFacts.round_spec (balance st) 6) as (_ & _ & Hn).
    eapply Qle_trans; [exact Hn|]. vm_compute. discriminate.
  - simpl. apply (reachable_trades_take_ticks c st Hr).
Qed.

Lemma append_bounded_nonempty (ps : list Q) (p : Q) : append_bounded ps p <> [].
Proof.
  destruct (append_bounded_cases ps p) as [C1 C2].
  destruct (Nat.lt_ge_cases (length ps) 500) as [H|H].
  - rewrite C1 by assumption. intro E. symmetry in E. now apply app_cons_not_nil in E.
  - rewrite C2 by assumption. intro E. symmetry in E. now apply app_cons_not_nil in E.
Qed.

Lemma status_after_tick (c : Config) (u : Q) (now : string) (st st' : State) :
  loop_iteration c u now st = Some st' ->
  sv_latest_price (status st') = Some (generate_next_price (price_series st) u) /\
  sv_tick (status st') = S (sv_tick (status st)).
Proof.
  intro Hstep.
  destruct (loop_iteration_total c u now st) as (st2 & E & Hs & Ht).
  rewrite Hstep in E. inversion E; subst st2. split; [|exact Ht].
  unfold status. cbn [sv_latest_price]. rewrite Hs.
  pose proof (append_bounded_last (price_series st) (generate_next_price (price_series st) u)) as Hl.
  pose proof (append_bounded_nonempty (price_series st) (generate_next_price (price_series st) u)) as Hn.
  destruct (append_bounded (price_series st) (generate_next_price (price_series st) u));
    [contradiction | now rewrite Hl].
Qed.

End ExtraFacts.

(** ** The properties *)

Module Extras.
Import FrameFacts RsiFacts SignalFacts EngineFacts LoopFacts ExtraFacts.

Lemma default_config_valid : valid_config default_config.
Proof. unfold valid_config; simpl; lia. Qed.

Lemma round_trip_state_reachable : reachable default_config round_trip_state.
Proof.
  apply (reachable_step default_config sample_state_21 round_trip_state (99 # 100) "t"
           sample_state_21_reachable); [lra | lra | vm_compute; reflexivity].
Qed.

Lemma wide_state_reachable : reachable wide_config wide_state.
Proof.
  apply (simulation_loop_reachable wide_config sample_draws (initial_state wide_config)).
  - apply sample_draws_in_range.
  - apply reachable_init.
  - vm_compute. reflexivity.
Qed.

(** X1. Every price of the history of a reachable state is a quoted price:
    a positive multiple of 0.00001. The generator never produces zero or a
    negative price, whatever the draws. *)
Theorem X1_prices_are_quotes (c : Config) (st : State) :
  valid_config c -> reachable c st -> Forall is_price (price_series st).
Proof. intros _ Hr. exact (reachable_prices c st Hr). Qed.

(** An instance: the 21 prices of the sample run. *)
Lemma X1_prices_are_quotes_witness :
  valid_config default_config /\ reachable default_config sample_state_21 /\
  Forall is_price sample_prices.
Proof.
  split; [exact default_config_valid|]. split; [exact sample_state_21_reachable|].
  exact (X1_prices_are_quotes default_config sample_state_21 default_config_valid
           sample_state_21_reachable).
Defined.

(** X2. The first price lies between 1.095 and 1.105. Every later price is
    within 0.08 percent of the price before it, up to the half unit of the
    fifth decimal that rounding can add. *)
Theorem X2_price_moves (hist : list Q) (last u : Q) :
  0 <= u -> u < 1 -> 0 <= last ->
  (1.095 <= generate_next_price [] u /\ generate_next_price [] u <= 1.105) /\
  (last * 0.9992 - 0.000005 <= generate_next_price (hist ++ [last]) u /\
   generate_next_price (hist ++ [last]) u <= last * 1.0008 + 0.000005).
Proof.
  intros H0 H1 Hl. split.
  - exact (first_price_range u H0 H1).
  - exact (price_step_bound hist last u H0 H1 Hl).
Qed.

(** An instance: the strongest fall from 1.1 gives 1.09912. *)
Lemma X2_price_moves_witness :
  0 <= 0 /\ 0 < 1 /\ 0 <= 1.1 /\
  generate_next_price ([] ++ [1.1]) 0 == 1.09912 /\
  1.1 * 0.9992 - 0.000005 <= generate_next_price ([] ++ [1.1]) 0.
Proof.
  assert (A : 0 <= 0) by lra. assert (B : 0 < 1) by lra. assert (C : 0 <= 1.1) by lra.
  split; [exact A|]. split; [exact B|]. split; [exact C|].
  split; [vm_compute; reflexivity|].
  exact (proj1 (proj2 (X2_price_moves [] 1.1 0 A B C))).
Defined.

(** X3. In every reachable state the history holds as many prices as ticks
    were run, up to 500: its length is the smaller of the tick counter and
    500. *)
Theorem X3_history_length (c : Config) (st : State) :
  valid_config c -> reachable c st ->
  length (price_series st) = Nat.min (tick st) 500.
Proof. intros _ Hr. exact (reachable_tick_length c st Hr). Qed.

(** An instance: 21 prices after 21 ticks. *)
Lemma X3_history_length_witness :
  valid_config default_config /\ reachable default_config sample_state_21 /\
  length (price_series sample_state_21) = 21%nat.
Proof.
  split; [exact default_config_valid|]. split; [exact sample_state_21_reachable|].
  exact (X3_history_length default_config sample_state_21 default_config_valid
           sample_state_21_reachable).
Defined.

(** X4. During the first [max(RSI_WINDOW, MA_LONG)] ticks the ledger is not
    touched: the balance is the starting balance, no position is open and no
    trade is recorded. *)
Theorem X4_no_trade_in_warm_up (c : Config) (st : State) :
  valid_config c -> reachable c st ->
  (tick st <= Nat.max (RSI_WINDOW c) (MA_LONG c))%nat ->
  untouched c st.
Proof.
  intros _.
  induction 1 as [|st st' u now Hr IH H0 H1 Hstep]; intro Ht.
  - repeat split.
  - pose proof (reachable_step c st st' u now Hr H0 H1 Hstep) as Hr'.
    pose proof (reachable_tick_length c st' Hr') as Hlen.
    destruct (loop_iteration_total c u now st) as (st2 & E & Hs & Htk).
    rewrite Hstep in E. inversion E; subst st2; clear E.
    assert (Hnone : compute_indicators c
              (append_bounded (price_series st) (generate_next_price (price_series st) u))
              = None).
    { apply compute_indicators_none. rewrite <- Hs, Hlen. lia. }
    rewrite (loop_iteration_none c u now st Hnone) in Hstep.
    inversion Hstep; subst st'. unfold untouched. simpl. apply IH.
    simpl in Ht. lia.
Qed.

(** An instance: the sample run after 20 ticks. *)
Lemma X4_no_trade_in_warm_up_witness :
  valid_config default_config /\ reachable default_config sample_state_20 /\
  (tick sample_state_20 <= Nat.max (RSI_WINDOW default_config) (MA_LONG default_config))%nat /\
  untouched default_config sample_state_20.
Proof.
  assert (Ht : (tick sample_state_20
                <= Nat.max (RSI_WINDOW default_config) (MA_LONG default_config))%nat)
    by (simpl; lia).
  split; [exact default_config_valid|]. split; [exact sample_state_20_reachable|].
  split; [exact Ht|].
  exact (X4_no_trade_in_warm_up default_config sample_state_20 default_config_valid
           sample_state_20_reachable Ht).
Defined.

(** X5. With a window of 500 or more, for the index or for either average,
    the bot never trades: the history is cut at 500 prices, so the last two
    rows of the frame are never both complete, and the ledger stays as it
    started. *)
Theorem X5_wide_window_never_trades (c : Config) (st : State) :
  valid_config c ->
  (500 <= RSI_WINDOW c \/ 500 <= MA_SHORT c \/ 500 <= MA_LONG c)%nat ->
  reachable c st -> untouched c st.
Proof.
  intros _.
  intros Hw. induction 1 as [|st st' u now Hr IH H0 H1 Hstep].
  - repeat split.
  - pose proof (reachable_step c st st' u now Hr H0 H1 Hstep) as Hr'.
    destruct (reachable_invariant c st' Hr') as [Hb Hp].
    destruct IH as (Ib & Ip & Ih).
    destruct (loop_step_ledger c u now st) as (st2 & E & _ & Hcase).
    rewrite Hstep in E. inversion E; subst st2; clear E.
    destruct Hcase as [(Eb & Ep & Eh)|[(_ & _ & _ & d & Ep)|(p & Ep & _)]].
    + unfold untouched. rewrite Eb, Ep, Eh. auto.
    + exfalso. assert (Hn : open_position st' <> None) by (rewrite Ep; discriminate).
      specialize (Hp Hn). lia.
    + congruence.
Qed.

(** An instance: the sample run under a long average of 500 points. *)
Lemma X5_wide_window_never_trades_witness :
  valid_config wide_config /\
  (500 <= RSI_WINDOW wide_config \/ 500 <= MA_SHORT wide_config
   \/ 500 <= MA_LONG wide_config)%nat /\
  reachable wide_config wide_state /\ untouched wide_config wide_state.
Proof.
  assert (Hv : valid_config wide_config) by (unfold valid_config; simpl; lia).
  assert (Hw : (500 <= RSI_WINDOW wide_config \/ 500 <= MA_SHORT wide_config
                \/ 500 <= MA_LONG wide_config)%nat) by (right; right; simpl; lia).
  split; [exact Hv|]. split; [exact Hw|]. split; [exact wide_state_reachable|].
  exact (X5_wide_window_never_trades wide_config wide_state Hv Hw wide_state_reachable).
Defined.

(** X6. [try_take_signal] raises (the [IndexError] of [df.iloc[-1]]) exactly
    on an empty frame, and the loop never hands it one: every run of the loop,
    from any state and over any inputs, ends in a state. *)
Theorem X6_raises_only_on_empty_frame (c : Config) :
  valid_config c ->
  (forall (now : string) (st : State) (df : DataFrame),
     try_take_signal c now st df = None <-> df = []) /\
  (forall (inputs : list (Q * string)) (st : State),
     exists st', simulation_loop c inputs st = Some st').
Proof.
  intros _. split.
  - intros now st df. apply try_take_signal_raises.
  - intros inputs st. destruct (run_balance c inputs st) as (st' & E & _). now exists st'.
Qed.

(** An instance: the empty frame raises, the sample run does not. *)
Lemma X6_raises_only_on_empty_frame_witness :
  valid_config default_config /\
  try_take_signal default_config "t" (initial_state default_config) [] = None /\
  exists st', simulation_loop default_config sample_draws (initial_state default_config)
                = Some st'.
Proof.
  split; [exact default_config_valid|].
  destruct (X6_raises_only_on_empty_frame default_config default_config_valid) as [H1 H2].
  split; [now apply H1 | apply H2].
Defined.

(** X7. On a frame of a single row there is no previous row to compare
    with: a flat state stays as it is, and an open position is closed exactly
    when its profit in pips, as binary64 arithmetic gives it, is at least 5
    or at most -10. *)
Theorem X7_single_row_frame (c : Config) (now : string) (st : State) (last : Row) :
  actionable last ->
  (open_position st = None -> try_take_signal c now st [last] = Some st) /\
  (forall p, open_position st = Some p ->
     let pnl := pnl_pips (direction p) (entry_price p) (close last) in
     (5 <= pnl \/ pnl <= - (10) ->
        try_take_signal c now st [last] = Some (close_state now st p last)) /\
     (~ (5 <= pnl \/ pnl <= - (10)) -> try_take_signal c now st [last] = Some st)).
Proof.
  intro Ha. split.
  - intro Hp. rewrite (try_flat c now st [last] last eq_refl Ha Hp).
    change (Pandas.iloc_prev [last]) with (@None Row).
    unfold buy_signal, sell_signal. now rewrite !andb_false_r.
  - intros p Hp pnl.
    rewrite (try_held c now st [last] last p eq_refl Ha Hp). fold pnl.
    change (Pandas.iloc_prev [last]) with (@None Row).
    assert (Hm : ma_reverse (direction p) last None = false) by reflexivity.
    rewrite Hm, orb_false_r. unfold take_profit, stop_loss.
    destruct (Qle_bool 5 pnl || Qle_bool pnl (- (10))) eqn:T.
    + split; [reflexivity|]. intro Hn. exfalso. apply Hn.
      apply orb_true_iff in T. rewrite !Qle_bool_iff in T. exact T.
    + split; [|reflexivity]. intro Hy. exfalso.
      assert (T' : Qle_bool 5 pnl || Qle_bool pnl (- (10)) = true).
      { apply orb_true_iff. rewrite !Qle_bool_iff. exact Hy. }
      congruence.
Qed.

(** An instance: a buy signal would need the row before; and a long
    position entered at 1.1 stays open at 1.1005, where binary64 gives
    4.9999999999994493 pips. *)
Lemma X7_single_row_frame_witness :
  actionable sample_last /\ actionable boundary_row /\
  try_take_signal default_config "t" (initial_state default_config) [sample_last]
    = Some (initial_state default_config) /\
  try_take_signal default_config "t" held_state [boundary_row] = Some held_state.
Proof.
  assert (Ha : actionable sample_last)
    by (unfold actionable; simpl; repeat split; discriminate).
  assert (Hb : actionable boundary_row)
    by (unfold actionable; simpl; repeat split; discriminate).
  split; [exact Ha|]. split; [exact Hb|]. split.
  - exact (proj1 (X7_single_row_frame default_config "t" (initial_state default_config)
                    sample_last Ha) eq_refl).
  - refine (proj2 (proj2 (X7_single_row_frame default_config "t" held_state
                            boundary_row Hb) _ eq_refl) _).
    intros [H|H]; vm_compute in H; apply H; reflexivity.
Defined.

(** X8. A frame returned by [compute_indicators] has the prices as its close
    column, and its row before the last always exists and holds the index
    and the long average; its short average is missing exactly when the
    history has no more than [MA_SHORT] prices. *)
Theorem X8_frame_rows (c : Config) (prices : list Q) (df : DataFrame) :
  valid_config c -> compute_indicators c prices = Some df ->
  map close df = prices /\
  exists prev, Pandas.iloc_prev df = Some prev /\
    close prev = nth (length prices - 2) prices 0 /\
    rsi prev <> None /\ ma_long prev <> None /\
    (ma_short prev <> None <-> (MA_SHORT c + 1 <= length prices)%nat).
Proof.
  intros Hv E. split; [exact (frame_close_column c prices df E)|].
  exact (proj2 (frame_previous_row c prices df Hv E)).
Qed.

(** An instance: the frame of the sample prices. *)
Lemma X8_frame_rows_witness :
  valid_config default_config /\
  exists df, compute_indicators default_config sample_prices = Some df /\
             map close df = sample_prices.
Proof.
  split; [exact default_config_valid|].
  destruct (compute_indicators default_config sample_prices) as [df|] eqn:E;
    [|vm_compute in E; discriminate].
  exists df. split; [reflexivity|].
  exact (proj1 (X8_frame_rows default_config sample_prices df default_config_valid E)).
Defined.

(** X9. In every reachable state each recorded trade carries the configured
    stake and quoted entry and close prices, and its profit in pips and its
    profit amount are the ones that its own direction, prices and stake
    give, rounded to three and to six decimals; an open position carries the
    configured stake and a quoted entry price. *)
Theorem X9_records_consistent (c : Config) (st : State) :
  valid_config c -> reachable c st ->
  Forall (trade_consistent c) (trades st) /\
  (forall p, open_position st = Some p -> position_consistent c p).
Proof.
  intros _. unfold trades.
  induction 1 as [|st st' u now Hr IH H0 H1 Hstep].
  - split; [constructor | discriminate].
  - destruct IH as [Ih Ip].
    pose proof (generated_price_is_price _ u (reachable_prices c st Hr) H0 H1) as Hprice.
    destruct (loop_step_precise c u now st) as (st2 & E & Hcase).
    rewrite Hstep in E. inversion E; subst st2; clear E.
    destruct Hcase as [->|[(_ & d & ->)|(p & last & Ep & Ec & ->)]]; simpl.
    + split; assumption.
    + split; [assumption|]. intros p Hp. inversion Hp; subst p.
      split; [reflexivity | exact Hprice].
    + split; [|discriminate].
      destruct (Ip p Ep) as [Ha He].
      apply Forall_app. split; [assumption|]. constructor; [|constructor].
      unfold trade_consistent, closed_trade. simpl. rewrite Ec.
      split; [exact Ha|]. split; [exact He|]. split; [exact Hprice|].
      split; reflexivity.
Qed.

(** An instance: the trade of the round trip. *)
Lemma X9_records_consistent_witness :
  valid_config default_config /\ reachable default_config round_trip_state /\
  (length (trades round_trip_state) = 1)%nat /\
  Forall (trade_consistent default_config) (trades round_trip_state).
Proof.
  split; [exact default_config_valid|]. split; [exact round_trip_state_reachable|].
  split; [reflexivity|].
  exact (proj1 (X9_records_consistent default_config round_trip_state
                  default_config_valid round_trip_state_reachable)).
Defined.

(** X10. Over any run the trade history only grows at its end, by one trade
    per close; opens and closes alternate, so the opens of the run, plus one
    if a position was open at its start, are its closes, plus one if a
    position is open at its end; and the tick counter advances by the number
    of iterations. *)
Theorem X10_history_append_only (c : Config) (inputs : list (Q * string)) (st : State) :
  valid_config c ->
  exists st', simulation_loop c inputs st = Some st' /\
    let tr := ledger_trace c inputs st in
    (exists newer, trades st' = trades st ++ newer /\
                   length newer = count_closes tr /\
                   (length newer <= length inputs)%nat) /\
    (count_opens tr + open_count st = count_closes tr + open_count st')%nat /\
    (tick st' = tick st + length inputs)%nat.
Proof.
  intros _.
  destruct (run_account c inputs st) as (st' & E & A1 & A2 & _ & (newer & A4 & A5) & A6).
  exists st'. split; [exact E|]. simpl. split; [|split; assumption].
  exists newer. unfold trades. split; [exact A4|]. split; [|exact A5].
  apply (f_equal (@length ClosedTrade)) in A4. rewrite length_app in A4. lia.
Qed.

(** An instance: the round trip, one open and one close in 22 ticks. *)
Lemma X10_history_append_only_witness :
  valid_config default_config /\
  exists st', simulation_loop default_config round_trip_draws
                (initial_state default_config) = Some st' /\
    (length (trades st') = 1)%nat /\ tick st' = 22%nat.
Proof.
  split; [exact default_config_valid|].
  destruct (X10_history_append_only default_config round_trip_draws
              (initial_state default_config) default_config_valid)
    as (st' & E & (newer & A1 & A2 & _) & _ & A3).
  exists st'. split; [exact E|]. split.
  - rewrite A1, length_app, A2. vm_compute. reflexivity.
  - rewrite A3. reflexivity.
Defined.

(** X11. After any run from the initial state, the balance plus the stake
    held by the open position is the starting balance plus the profit
    amounts of the closes; with no position open, the balance is the
    starting balance plus those profit amounts. *)
Theorem X11_balance_and_profits (c : Config) (inputs : list (Q * string)) :
  valid_config c ->
  exists st, simulation_loop c inputs (initial_state c) = Some st /\
    let tr := ledger_trace c inputs (initial_state c) in
    balance st + held st == START_BALANCE c + sum_profits tr /\
    (open_position st = None -> balance st == START_BALANCE c + sum_profits tr).
Proof.
  intros _.
  destruct (run_account c inputs (initial_state c)) as (st & E & _ & _ & A3 & _).
  exists st. split; [exact E|]. simpl.
  assert (H : balance st + held st
              == START_BALANCE c + sum_profits (ledger_trace c inputs (initial_state c))).
  { rewrite A3. unfold held. simpl. ring. }
  split; [exact H|]. intro Hn. unfold held in H. rewrite Hn in H. rewrite <- H. ring.
Qed.

(** An instance: the round trip ends flat with 1000.086, up to the
    binary64 rounding of its profit in pips. *)
Lemma X11_balance_and_profits_witness :
  valid_config default_config /\
  exists st, simulation_loop default_config round_trip_draws
               (initial_state default_config) = Some st /\
    Qabs (sum_profits (ledger_trace default_config round_trip_draws
                         (initial_state default_config)) - 0.086) <= 0.000000001 /\
    Qabs (balance st + held st - 1000.086) <= 0.000000001.
Proof.
  split; [exact default_config_valid|].
  destruct (X11_balance_and_profits default_config round_trip_draws default_config_valid)
    as (st & E & H & _).
  exists st. split; [exact E|]. split; [vm_compute; discriminate|].
  rewrite H. vm_compute. discriminate.
Defined.

(** X12. What the status view reports in a reachable state: no latest price
    exactly when no tick was run, otherwise a quoted price; a balance within
    half a millionth of the balance held; and a trade count and an open
    position that the ticks can account for, each open and each close having
    taken a tick of its own. After an iteration the latest price is the
    price that iteration generated and the tick count is one more. *)
Theorem X12_status_view (c : Config) (st : State) :
  valid_config c -> reachable c st ->
  (sv_latest_price (status st) = None <-> sv_tick (status st) = 0%nat) /\
  (forall p, sv_latest_price (status st) = Some p -> is_price p) /\
  Qabs (sv_balance (status st) - balance st) <= 0.0000005 /\
  (2 * sv_trades_count (status st) + open_count st <= sv_tick (status st))%nat /\
  (forall (u : Q) (now : string) (st' : State),
     loop_iteration c u now st = Some st' ->
     sv_latest_price (status st') = Some (generate_next_price (price_series st) u) /\
     sv_tick (status st') = S (sv_tick (status st))).
Proof.
  intros _ Hr.
  destruct (status_reachable c st Hr) as (A1 & A2 & A3 & A4).
  split; [exact A1|]. split; [exact A2|]. split; [exact A3|]. split; [exact A4|].
  intros u now st' Hstep. exact (status_after_tick c u now st st' Hstep).
Qed.

(** An instance: the status before the first tick. *)
Lemma X12_status_view_witness :
  valid_config default_config /\
  reachable default_config (initial_state default_config) /\
  sv_latest_price (status (initial_state default_config)) = None.
Proof.
  split; [exact default_config_valid|]. split; [apply reachable_init|].
  apply (proj1 (X12_status_view default_config (initial_state default_config)
                  default_config_valid (reachable_init default_config))).
  reflexivity.
Defined.

(** X13. The log of an iteration can be read off the ledger before and
    after it: an OPEN BUY or OPEN SELL line, with the entry price, exactly
    when a position was opened; a CLOSE line, with the direction, the close
    price and the profit amount, exactly when one was closed; and then the
    status line exactly when the new tick count is a multiple of ten. *)
Theorem X13_log_follows_ledger (c : Config) (u : Q) (now : string) (st : State) :
  valid_config c ->
  exists st', loop_iteration c u now st = Some st' /\
    loop_iteration_log c u now st = Some (journal st st').
Proof.
  intros _.
  set (price := generate_next_price (price_series st) u).
  unfold loop_iteration, loop_iteration_log. fold price.
  assert (Hlast : forall b p h,
            List.last (price_series (set_ledger (record_price st price) b p h)) 0 = price).
  { intros. simpl. apply append_bounded_last. }
  destruct (compute_indicators c (price_series (record_price st price)))
    as [df|] eqn:E.
  - pose proof (compute_indicators_last c _ df E) as Hl.
    assert (Hc : List.last (price_series (record_price st price)) 0 = price)
      by (simpl; apply append_bounded_last).
    rewrite Hc in Hl.
    unfold try_take_signal, try_take_signal_log. rewrite Hl.
    cbn [rsi ma_short ma_long close].
    destruct (Num.isna _ || Num.isna _ || Num.isna _).
    + eexists. split; [reflexivity|]. unfold journal. rewrite Hc. simpl.
      now destruct (open_position st).
    + cbn [open_position record_price].
      destruct (open_position st) as [p|] eqn:Hp.
      * destruct (Qle_bool _ _ || Qle_bool _ _ || ma_reverse _ _ _).
        -- eexists. split; [reflexivity|]. unfold journal. rewrite Hlast.
           cbn [open_position set_ledger]. rewrite Hp. reflexivity.
        -- eexists. split; [reflexivity|]. unfold journal. rewrite Hc.
           cbn [open_position record_price]. rewrite Hp. reflexivity.
      * destruct (buy_signal _ _).
        -- eexists. split; [reflexivity|]. unfold journal. rewrite Hlast.
           cbn [open_position set_ledger]. rewrite Hp. reflexivity.
        -- destruct (sell_signal _ _).
           ++ eexists. split; [reflexivity|]. unfold journal. rewrite Hlast.
              cbn [open_position set_ledger]. rewrite Hp. reflexivity.
           ++ eexists. split; [reflexivity|]. unfold journal. rewrite Hc.
              cbn [open_position record_price]. rewrite Hp. reflexivity.
  - eexists. split; [reflexivity|]. unfold journal.
    assert (Hc : List.last (price_series (record_price st price)) 0 = price)
      by (simpl; apply append_bounded_last).
    rewrite Hc. simpl. now destruct (open_position st).
Qed.

(** An instance: the 21st tick of the sample run logs one OPEN BUY line. *)
Lemma X13_log_follows_ledger_witness :
  valid_config default_config /\
  loop_iteration_log default_config (2 # 5) "t" sample_state_20
    = Some [OpenBuyLine 1.09892].
Proof.
  split; [exact default_config_valid|].
  destruct (X13_log_follows_ledger default_config (2 # 5) "t" sample_state_20
              default_config_valid) as (st' & E & L).
  rewrite L.
  assert (E' : loop_iteration default_config (2 # 5) "t" sample_state_20
               = Some sample_state_21) by (vm_compute; reflexivity).
  rewrite E' in E. inversion E; subst st'. vm_compute. reflexivity.
Defined.

End Extras.
